(** * crawlStars: the NASA image-of-the-day downloader

    A shallow embedding of [src/crawlStars.py] and the properties its
    design document states about it.

    Text is modelled the way the program sees it: every document line is
    decoded with ISO-8859-1, so a [str] is a sequence of code points below
    256, which is exactly [string] (a list of 8-bit [ascii]); raw lines and
    image data are [list byte].  The regular expressions are kept as the
    pattern texts of the source and compiled by [re_compile] to the small
    instruction set a backtracking matcher runs.  The network, the file
    system and the operator (who may interrupt) are the environment: they
    answer each request from the history of the run so far, and the run
    itself is a computation over the trace of what it did. *)

From Stdlib Require Import String Ascii List Bool Arith Lia.
From Stdlib Require Import Strings.Byte Sorting.Permutation NArith.
Import ListNotations.
Local Open Scope string_scope.
Local Open Scope nat_scope.

(** ** Characters and the [str] methods the program uses *)

Definition dquote : ascii := "034"%char.
Definition newline : ascii := "010"%char.

(** A one-character string, and text wrapped in double quotes. *)
Definition chr (c : ascii) : string := String c "".
Definition quoted (s : string) : string := chr dquote ++ s ++ chr dquote.

Definition code (c : ascii) : nat := nat_of_ascii c.

(** [str.isspace] on code points below 256: TAB..CR, FS..US, space, NEL and
    the no-break space.  [str.strip] and the pattern class [\s] both use it. *)
Definition is_space (c : ascii) : bool :=
  let n := code c in
  ((9 <=? n) && (n <=? 13)) || ((28 <=? n) && (n <=? 32))
  || (n =? 133) || (n =? 160).

(** [\d] on code points below 256: the ten ASCII digits. *)
Definition is_digit (c : ascii) : bool :=
  let n := code c in (48 <=? n) && (n <=? 57).

(** Simple lower-casing of a code point below 256, as [re.IGNORECASE] does
    for [str] patterns: A-Z, and the Latin-1 capitals except the
    multiplication sign. *)
Definition tolower (c : ascii) : ascii :=
  let n := code c in
  if ((65 <=? n) && (n <=? 90))
     || ((192 <=? n) && (n <=? 222) && negb (n =? 215))
  then ascii_of_nat (n + 32) else c.

Fixpoint lstrip (s : string) : string :=
  match s with
  | String c s' => if is_space c then lstrip s' else s
  | "" => ""
  end.

Fixpoint rstrip (s : string) : string :=
  match s with
  | String c s' =>
      match rstrip s' with
      | "" => if is_space c then "" else chr c
      | r => String c r
      end
  | "" => ""
  end.

(** [s.strip()] *)
Definition strip (s : string) : string := lstrip (rstrip s).

(** [item.decode('ISO-8859-1')]: one code point per byte, never fails. *)
Definition decode_latin1 (item : list byte) : string :=
  string_of_list_byte item.

(** [s[n:]] and [s[n:m]]; like Python's slices they stop at the end of a
    short string instead of failing. *)
Fixpoint slice_from (n : nat) (s : string) : string :=
  match n, s with
  | S n', String _ s' => slice_from n' s'
  | _, _ => s
  end.

Definition slice (n m : nat) (s : string) : string := substring n (m - n) s.

(** [s.replace(old, new)] for a non-empty [old]: left to right, occurrences
    do not overlap, the inserted text is not scanned again.  [skip] counts
    the characters of the occurrence just replaced that are still to pass. *)
Fixpoint replace_from (old new : string) (skip : nat) (s : string) : string :=
  match s with
  | "" => ""
  | String c s' =>
      match skip with
      | S k => replace_from old new k s'
      | 0 =>
          if prefix old s
          then new ++ replace_from old new (String.length old - 1) s'
          else String c (replace_from old new 0 s')
      end
  end.

Definition replace (old new s : string) : string := replace_from old new 0 s.

(** [sep.join(parts)] *)
Definition join (sep : string) (parts : list string) : string :=
  String.concat sep parts.

(** ** Regular expressions

    The subset of [re] syntax the three patterns of the program use. *)

Inductive charset : Type :=
  | CLit (c : ascii)             (* a literal character *)
  | CDigit                       (* \d *)
  | CSpace                       (* \s *)
  | CAny                         (* .  : anything but a newline *)
  | CNot (cs : list ascii).      (* [^...] *)

Inductive op : Type :=
  | OBol                                         (* ^ *)
  | OEol                                         (* $ *)
  | OIn (cs : charset)                           (* one character *)
  | ORep (cs : charset) (lo : nat) (hi : option nat)   (* greedy repeat *)
  | OMark.                                       (* a group opens or closes *)

Record Pattern : Type := mkPattern {
  ops : list op;
  ignorecase : bool
}.

Definition same_char (ic : bool) (a b : ascii) : bool :=
  if ic then Ascii.eqb (tolower a) (tolower b) else Ascii.eqb a b.

Definition cs_mem (ic : bool) (cs : charset) (c : ascii) : bool :=
  match cs with
  | CLit x => same_char ic c x
  | CDigit => is_digit c
  | CSpace => is_space c
  | CAny => negb (Ascii.eqb c newline)
  | CNot l => negb (existsb (same_char ic c) l)
  end.

(** [$] without [re.MULTILINE]: at the end of the text, or just before a
    newline that is its last character. *)
Definition at_end (s : string) : bool :=
  match s with
  | "" => true
  | String c "" => Ascii.eqb c newline
  | _ => false
  end.

Definition marks := list nat.
Definition cont := nat -> string -> marks -> option (nat * marks).

(** Greedy repetition with backtracking: take one more character when the
    class and the upper bound allow it and the rest of the pattern then
    matches; otherwise stop here, if the lower bound is met. *)
Fixpoint greedy (ic : bool) (k : cont) (cs : charset) (lo : nat)
    (hi : option nat) (pos : nat) (s : string) (ms : marks)
    : option (nat * marks) :=
  let stop := match lo with 0 => k pos s ms | S _ => None end in
  match s with
  | String c s' =>
      if cs_mem ic cs c && negb (match hi with Some 0 => true | _ => false end)
      then
        match greedy ic k cs (Nat.pred lo) (option_map Nat.pred hi)
                (S pos) s' ms with
        | Some r => Some r
        | None => stop
        end
      else stop
  | "" => stop
  end.

(** [run ic os pos s ms]: match the instructions [os] against [s], the text
    from offset [pos] on; the result is the offset where the match ends and
    the group boundaries passed on the way. *)
Fixpoint run (ic : bool) (os : list op) (pos : nat) (s : string) (ms : marks)
    : option (nat * marks) :=
  match os with
  | [] => Some (pos, ms)
  | OBol :: k => if pos =? 0 then run ic k pos s ms else None
  | OEol :: k => if at_end s then run ic k pos s ms else None
  | OIn cs :: k =>
      match s with
      | String c s' => if cs_mem ic cs c then run ic k (S pos) s' ms else None
      | "" => None
      end
  | ORep cs lo hi :: k => greedy ic (run ic k) cs lo hi pos s ms
  | OMark :: k => run ic k pos s (ms ++ [pos])%list
  end.

(** The captured texts, from the boundaries in the order they were passed. *)
Fixpoint groups_of (ms : marks) (s : string) : list string :=
  match ms with
  | a :: b :: ms' => substring a (b - a) s :: groups_of ms' s
  | _ => []
  end.

(** [pattern.match(line)] followed by [.groups()]. *)
Definition re_match (p : Pattern) (line : string) : option (list string) :=
  match run (ignorecase p) (ops p) 0 line [] with
  | Some (_, ms) => Some (groups_of ms line)
  | None => None
  end.

(** [pattern.sub(repl, s)]: every leftmost non-overlapping match is replaced
    by [repl]; [skip] counts the matched characters still to drop. *)
Fixpoint sub_from (p : Pattern) (repl : string) (pos skip : nat) (s : string)
    : string :=
  match skip with
  | S k =>
      match s with
      | String _ s' => sub_from p repl (S pos) k s'
      | "" => ""
      end
  | 0 =>
      match run (ignorecase p) (ops p) pos s [] with
      | Some (e, _) =>
          repl ++
          match s with
          | String c s' =>
              if e =? pos then String c (sub_from p repl (S pos) 0 s')
              else sub_from p repl (S pos) (e - pos - 1) s'
          | "" => ""
          end
      | None =>
          match s with
          | String c s' => String c (sub_from p repl (S pos) 0 s')
          | "" => ""
          end
      end
  end.

Definition re_sub_compiled (p : Pattern) (repl s : string) : string :=
  sub_from p repl 0 0 s.

(** *** Compiling a pattern text *)

Inductive pstate : Type :=
  | PTop                         (* between atoms *)
  | PEsc                         (* after a backslash *)
  | PSetOpen                     (* after [ *)
  | PSet (cs : list ascii)       (* inside [^ ... *)
  | PBrace (n : option nat).     (* inside { ... *)

(** A quantifier applies to the atom just read. *)
Definition quantify (lo : nat) (hi : option nat) (acc : list op)
    : option (list op) :=
  match acc with
  | OIn cs :: acc' => Some (ORep cs lo hi :: acc')
  | _ => None
  end.

Definition digit_value (c : ascii) : nat := code c - 48.

(** [acc] holds the instructions read so far, last one first; [inside] says
    whether a group is open (groups do not nest in this subset). *)
Fixpoint parse (s : string) (st : pstate) (inside : bool) (acc : list op)
    : option (list op) :=
  match s with
  | "" =>
      match st, inside with
      | PTop, false => Some (rev acc)
      | _, _ => None
      end
  | String c s' =>
      match st with
      | PTop =>
          if Ascii.eqb c "^" then parse s' PTop inside (OBol :: acc)
          else if Ascii.eqb c "$" then parse s' PTop inside (OEol :: acc)
          else if Ascii.eqb c "." then parse s' PTop inside (OIn CAny :: acc)
          else if Ascii.eqb c "\" then parse s' PEsc inside acc
          else if Ascii.eqb c "[" then parse s' PSetOpen inside acc
          else if Ascii.eqb c "{" then parse s' (PBrace None) inside acc
          else if Ascii.eqb c "(" then
            if inside then None else parse s' PTop true (OMark :: acc)
          else if Ascii.eqb c ")" then
            if inside then parse s' PTop false (OMark :: acc) else None
          else if Ascii.eqb c "+" then
            match quantify 1 None acc with
            | Some acc' => parse s' PTop inside acc'
            | None => None
            end
          else if Ascii.eqb c "*" then
            match quantify 0 None acc with
            | Some acc' => parse s' PTop inside acc'
            | None => None
            end
          else if Ascii.eqb c "?" || Ascii.eqb c "|" || Ascii.eqb c "]"
                  || Ascii.eqb c "}" then None
          else parse s' PTop inside (OIn (CLit c) :: acc)
      | PEsc =>
          if Ascii.eqb c "d" then parse s' PTop inside (OIn CDigit :: acc)
          else if Ascii.eqb c "s" then parse s' PTop inside (OIn CSpace :: acc)
          else if is_digit c || ((65 <=? code c) && (code c <=? 90))
                  || ((97 <=? code c) && (code c <=? 122)) then None
          else parse s' PTop inside (OIn (CLit c) :: acc)
      | PSetOpen =>
          if Ascii.eqb c "^" then parse s' (PSet []) inside acc else None
      | PSet cs =>
          if Ascii.eqb c "]" then
            match cs with
            | [] => parse s' (PSet [c]) inside acc
            | _ => parse s' PTop inside (OIn (CNot (rev cs)) :: acc)
            end
          else if Ascii.eqb c "\" || Ascii.eqb c "-" || Ascii.eqb c "[" then None
          else parse s' (PSet (c :: cs)) inside acc
      | PBrace n =>
          if is_digit c then
            parse s' (PBrace (Some (10 * match n with Some v => v | None => 0 end
                                    + digit_value c))) inside acc
          else if Ascii.eqb c "}" then
            match n with
            | Some v =>
                match quantify v (Some v) acc with
                | Some acc' => parse s' PTop inside acc'
                | None => None
                end
            | None => None
            end
          else None
      end
  end.

(** A pattern no text matches. *)
Definition no_match : list op := [OIn CAny; OBol].

(** [re.compile(text, flags)].  Every pattern text of the program lies in
    the subset [parse] reads (lemmas [PATTERN_SUBPAGE_ops],
    [PATTERN_IMAGE_ops] and [parent_ops] below give the instructions), so
    [no_match] is never what runs. *)
Definition re_compile (text : string) (ic : bool) : Pattern :=
  match parse text PTop false [] with
  | Some os => mkPattern os ic
  | None => mkPattern no_match ic
  end.

(** [re.sub(text, repl, s)] *)
Definition re_sub (text repl s : string) : string :=
  re_sub_compiled (re_compile text false) repl s.

(** ** The program *)

Definition IMG_FILENAME_FORMAT : string := "image_{date}.jpg".

Definition URL_BASE : string := "https://apod.nasa.gov/apod/archivepix.html".
Definition PATTERN_SUBPAGE : string :=
  "^(\d{4}[^:]+):\s+<a href=" ++ chr dquote ++ "([^" ++ chr dquote
  ++ "]+)[^>]+>([^<]+)<\/a>.*$".
Definition PATTERN_IMAGE : string :=
  "^<img src=" ++ chr dquote ++ "([^" ++ chr dquote ++ "]+)" ++ chr dquote
  ++ "$".

Definition DATE_START : string := "2020-01-01".

Definition get_parent_url (url : string) : string :=
  re_sub "/[^/]+$" "" url.

(** *** Exceptions, responses and the trace of a run *)

Inductive exn : Type :=
  | URLError (msg : string)      (* urllib.error.URLError, with its text *)
  | KeyboardInterrupt
  | OSError (msg : string)       (* any other OSError *)
  | ValueError
  | IndexError.

(** What iterating a response (or a generator) gives: items one at a time,
    until it is exhausted or an exception breaks it off. *)
Inductive gen (A : Type) : Type :=
  | Stop
  | Yield (a : A) (rest : gen A)
  | Raise (e : exn).
Arguments Stop {A}.
Arguments Yield {A} a rest.
Arguments Raise {A} e.

Fixpoint gen_of_list {A : Type} (l : list A) : gen A :=
  match l with
  | [] => Stop
  | a :: l' => Yield a (gen_of_list l')
  end.

Inductive level : Type := INFO | ERROR.

(** What a run does, as seen from outside.  A file is named by the folder
    and the name that [Path(folder) / name] puts together. *)
Inductive event : Type :=
  | EvUrlopen (url : string)                   (* urllib.request.urlopen(url) *)
  | EvLog (lvl : level) (msg : string)         (* a record of the root logger *)
  | EvOpen (folder name : string)              (* open(p, mode="wb") *)
  | EvWrite (folder name : string) (data : list byte)   (* f.write(data) *)
  | EvRaise (e : exn)                          (* an exception is raised *)
  | EvPrint (text : string).                   (* print(text) *)

Definition trace := list event.

(** A computation extends the trace and returns a value or raises. *)
Definition IO (A : Type) : Type := trace -> (exn + A) * trace.

Definition ret {A : Type} (a : A) : IO A := fun tr => (inr a, tr).

Definition bind {A B : Type} (m : IO A) (f : A -> IO B) : IO B :=
  fun tr =>
    match m tr with
    | (inr a, tr') => f a tr'
    | (inl e, tr') => (inl e, tr')
    end.

Notation "x <- m ;; k" := (bind m (fun x => k))
  (at level 61, m at next level, right associativity).
Notation "m ;; k" := (bind m (fun _ => k))
  (at level 61, right associativity).

Definition emit (ev : event) : IO unit := fun tr => (inr tt, (tr ++ [ev])%list).

Definition raise {A : Type} (e : exn) : IO A :=
  fun tr => (inl e, (tr ++ [EvRaise e])%list).

Definition lift {A : Type} (r : exn + A) : IO A :=
  match r with
  | inl e => raise e
  | inr a => ret a
  end.

(** [try: body / except <class> as e: handler e] *)
Definition try_except {A : Type} (body : IO A) (catches : exn -> bool)
    (handler : exn -> IO A) : IO A :=
  fun tr =>
    match body tr with
    | (inl e, tr') => if catches e then handler e tr' else (inl e, tr')
    | r => r
    end.

Definition is_URLError (e : exn) : bool :=
  match e with URLError _ => true | _ => false end.

Definition is_KeyboardInterrupt (e : exn) : bool :=
  match e with KeyboardInterrupt => true | _ => false end.

(** [str(e)] *)
Definition str_of_exn (e : exn) : string :=
  match e with
  | URLError msg => msg
  | KeyboardInterrupt => ""
  | OSError msg => msg
  | ValueError => "ValueError"
  | IndexError => "IndexError"
  end.

Definition print (text : string) : IO unit := emit (EvPrint text).

Definition entry : Type := string * string * string.

(** The loop of [load_archive] over the lines of the opened index. *)
Fixpoint load_archive_lines (pattern : Pattern) (page_start : string)
    (f : gen (list byte)) : gen entry :=
  match f with
  | Stop => Stop
  | Raise e => Raise e
  | Yield item rest =>
      let line := strip (decode_latin1 item) in
      match re_match pattern line with
      | Some [when; link; title] =>
          if String.leb page_start link
          then Yield (when, link, title)
                 (load_archive_lines pattern page_start rest)
          else load_archive_lines pattern page_start rest
      | Some _ => Raise ValueError
      | None => load_archive_lines pattern page_start rest
      end
  end.

(** The loop of [find_image_on_page] over the lines of the opened page. *)
Fixpoint find_image_lines (result : option string) (page : gen (list byte))
    : exn + option string :=
  match page with
  | Stop => inr result
  | Raise e => inl e
  | Yield item rest =>
      let line := strip (decode_latin1 item) in
      let pattern := re_compile PATTERN_IMAGE true in
      match re_match pattern line with
      | Some (g :: _) => find_image_lines (Some g) rest
      | Some [] => inl IndexError
      | None => find_image_lines result rest
      end
  end.

(** [page.read()] *)
Fixpoint read (page : gen (list byte)) : exn + list byte :=
  match page with
  | Stop => inr []
  | Raise e => inl e
  | Yield item rest =>
      match read rest with
      | inr data => inr (item ++ data)%list
      | inl e => inl e
      end
  end.

Definition page_start_of (date_start : string) : string :=
  let date_fixed := slice_from 2 (replace "-" "" date_start) in
  "ap" ++ date_fixed.

Definition url_page (base_url link : string) : string :=
  join "/" [base_url; link].

Definition url_img (base_url img_link : string) : string :=
  join "/" [base_url; img_link].

Definition filename (link : string) : string :=
  replace "{date}" (slice 2 8 link) IMG_FILENAME_FORMAT.

Section Run.

(** The network answers a request with an exception or a response, whose
    items may break off with an exception; the file system may refuse an
    [open] or a [write]; the operator may interrupt, which surfaces as
    [KeyboardInterrupt] in the call during which it arrives (a [True] of
    [sigint] at a logging call, or the answer of [net] or [fs]).  All of them
    may depend on everything that happened before. *)
Variable net : trace -> string -> exn + gen (list byte).
Variable fs : trace -> string -> string -> option exn.
Variable sigint : trace -> bool.

Definition checkpoint : IO unit :=
  fun tr => if sigint tr then raise KeyboardInterrupt tr else ret tt tr.

(** [main] sets the root logger to INFO: the [logging.debug] of
    [load_archive] leaves no record. *)
Definition logging_info (msg : string) : IO unit :=
  checkpoint ;; emit (EvLog INFO msg).
Definition logging_error (msg : string) : IO unit :=
  checkpoint ;; emit (EvLog ERROR msg).

Definition urlopen (url : string) : IO (gen (list byte)) :=
  fun tr =>
    let tr1 := (tr ++ [EvUrlopen url])%list in
    match net tr url with
    | inl e => raise e tr1
    | inr f => (inr f, tr1)
    end.

Definition open_wb (folder name : string) : IO unit :=
  fun tr =>
    let tr1 := (tr ++ [EvOpen folder name])%list in
    match fs tr folder name with
    | Some e => raise e tr1
    | None => (inr tt, tr1)
    end.

Definition write (folder name : string) (data : list byte) : IO unit :=
  fun tr =>
    let tr1 := (tr ++ [EvWrite folder name data])%list in
    match fs tr folder name with
    | Some e => raise e tr1
    | None => (inr tt, tr1)
    end.

(** A generator does nothing until its first item is asked for; then it
    opens the index and filters its lines as they come. *)
Definition load_archive (url : string) (pattern : Pattern)
    (date_start : string) : IO (gen entry) :=
  let page_start := page_start_of date_start in
  f <- urlopen url ;;
  ret (load_archive_lines pattern page_start f).

Definition find_image_on_page (page_url : string) : IO (option string) :=
  page <- urlopen page_url ;;
  lift (find_image_lines None page).

Definition save_image_from_url (url name folder : string) : IO unit :=
  page <- urlopen url ;;
  open_wb folder name ;;
  data <- lift (read page) ;;
  write folder name data.

Fixpoint save_images_loop (pages : gen entry) (base_url : string) : IO unit :=
  match pages with
  | Stop => ret tt
  | Raise e => raise e
  | Yield (when, link, title) rest =>
      logging_info ("Got link to page for " ++ when ++ ": " ++ title) ;;
      img_link <- find_image_on_page (url_page base_url link) ;;
      match img_link with
      | Some img =>
          logging_info ("Image found at " ++ img) ;;
          save_image_from_url (url_img base_url img) (filename link) "./"
      | None => ret tt
      end ;;
      save_images_loop rest base_url
  end.

Definition save_images (pages : IO (gen entry)) (base_url : string)
    : IO unit :=
  g <- pages ;;
  save_images_loop g base_url.

(** The body of the [try] of [main]; the relaxed TLS context it installs
    first changes nothing the model observes. *)
Definition main_body : IO unit :=
  let archive_links :=
    load_archive URL_BASE (re_compile PATTERN_SUBPAGE false) DATE_START in
  save_images archive_links (get_parent_url URL_BASE).

Definition main : IO unit :=
  try_except main_body is_URLError (fun e => logging_error (str_of_exn e)).

(** The [if __name__ == "__main__"] block. *)
Definition script : IO unit :=
  try_except main is_KeyboardInterrupt
    (fun _ => print "Interrupted by user.").

End Run.

(** [b"..."]: the bytes of a text of code points below 256. *)
Definition bytes (s : string) : list byte := list_byte_of_string s.

(** * Vocabulary of the properties, and sample documents *)

(** The instructions of the three patterns of the program. *)
Definition lit (c : ascii) : op := OIn (CLit c).

Definition SUBPAGE_OPS : list op :=
  [OBol; OMark; ORep CDigit 4 (Some 4); ORep (CNot [":"%char]) 1 None; OMark;
   lit ":"; ORep CSpace 1 None;
   lit "<"; lit "a"; lit " "; lit "h"; lit "r"; lit "e"; lit "f"; lit "=";
   lit dquote; OMark; ORep (CNot [dquote]) 1 None; OMark;
   ORep (CNot [">"%char]) 1 None; lit ">"; OMark;
   ORep (CNot ["<"%char]) 1 None; OMark;
   lit "<"; lit "/"; lit "a"; lit ">"; ORep CAny 0 None; OEol].

Definition IMAGE_OPS : list op :=
  [OBol; lit "<"; lit "i"; lit "m"; lit "g"; lit " "; lit "s"; lit "r";
   lit "c"; lit "="; lit dquote; OMark; ORep (CNot [dquote]) 1 None; OMark;
   lit dquote; OEol].

Definition PARENT_OPS : list op :=
  [lit "/"; ORep (CNot ["/"%char]) 1 None; OEol].

(** How many group boundaries a pattern passes. *)
Fixpoint count_marks (os : list op) : nat :=
  match os with
  | [] => 0
  | OMark :: k => S (count_marks k)
  | _ :: k => count_marks k
  end.

(** The page-start token as the design document words it: the start date
    without its '-' separators and without its first two characters. *)
Definition pageStart_by_the_words (start_date : string) : string :=
  slice_from 2 (replace "-" "" start_date).

(** An index row of the last day of 2019. *)
Definition ROW_2019 : list byte :=
  bytes ("2019 December 31:  <a href=" ++ quoted "ap191231.html"
         ++ ">Old light</a><br>" ++ chr newline).

(** What one line contributes, for the pattern of [main]. *)
Definition yielded (page_start : string) (item : list byte) : list entry :=
  match re_match (re_compile PATTERN_SUBPAGE false)
          (strip (decode_latin1 item)) with
  | Some [when; link; title] =>
      if String.leb page_start link then [(when, link, title)] else []
  | _ => []
  end.

(** The first line of the fake index of the end-to-end scenario. *)
Definition ROW_A : list byte :=
  bytes ("200101xx: <a href=" ++ quoted "ap200101.html" ++ ">Title A</a>").

(** A row below and a row above the threshold of 2020-01-02, and a network
    that serves the three rows as the index. *)
Definition ROW_BELOW : list byte :=
  bytes ("191231xx: <a href=" ++ quoted "ap191231.html" ++ ">Title B</a>").
Definition ROW_ABOVE : list byte :=
  bytes ("200115xx: <a href=" ++ quoted "ap200115.html" ++ ">Title C</a>").

Definition net_fake_index (tr : trace) (url : string)
    : exn + gen (list byte) :=
  inr (gen_of_list [ROW_BELOW; ROW_ABOVE; ROW_A]).

(** What the image-reference pattern, compiled as [find_image_on_page]
    compiles it, finds in one raw line. *)
Definition image_match (item : list byte) : option (list string) :=
  re_match (re_compile PATTERN_IMAGE true) (strip (decode_latin1 item)).

(** The captures of the matching lines of a page, in document order. *)
Definition captures (items : list (list byte)) : list string :=
  flat_map (fun item =>
              match image_match item with
              | Some (g :: _) => [g]
              | _ => []
              end) items.

(** A page with two image tags, each broken after its source as the pages
    of the archive are, and a page without any. *)
Definition PAGE_TWO_IMAGES : list (list byte) :=
  [bytes ("<html>" ++ chr newline);
   bytes ("<IMG SRC=" ++ quoted "image/2001/thumb.jpg" ++ chr newline);
   bytes ("alt=" ++ quoted "thumbnail" ++ ">" ++ chr newline);
   bytes ("<IMG SRC=" ++ quoted "image/2001/full.jpg" ++ chr newline);
   bytes ("</html>" ++ chr newline)].

Definition net_two_images (tr : trace) (url : string)
    : exn + gen (list byte) :=
  inr (gen_of_list PAGE_TWO_IMAGES).

(** The join as the design document words it: a single separator between
    the two parts, whatever slashes the base ends with or the link starts
    with. *)
Fixpoint lstrip_slashes (s : string) : string :=
  match s with
  | String c s' => if Ascii.eqb c "/" then lstrip_slashes s' else s
  | "" => ""
  end.

Fixpoint rstrip_slashes (s : string) : string :=
  match s with
  | String c s' =>
      match rstrip_slashes s' with
      | "" => if Ascii.eqb c "/" then "" else chr c
      | r => String c r
      end
  | "" => ""
  end.

Definition separator_safe_join (base link : string) : string :=
  rstrip_slashes base ++ "/" ++ lstrip_slashes link.

(** An environment in which nobody interrupts, the disk accepts everything
    and the network serves one entry's page and image. *)
Definition calm (tr : trace) : bool := false.
Definition fs_ok (tr : trace) (folder name : string) : option exn := None.

Definition net_one_entry (tr : trace) (url : string)
    : exn + gen (list byte) :=
  if String.eqb url "https://apod.nasa.gov/apod/ap200115.html"
  then inr (gen_of_list PAGE_TWO_IMAGES)
  else inr (gen_of_list [bytes "JFIF"; bytes "data"]).

Definition PAGE_NO_IMAGE : list (list byte) :=
  [bytes ("<html>" ++ chr newline);
   bytes ("<iframe src=" ++ quoted "https://video.example/v" ++ ">"
          ++ chr newline);
   bytes ("</html>" ++ chr newline)].

Definition net_no_image (tr : trace) (url : string)
    : exn + gen (list byte) :=
  inr (gen_of_list PAGE_NO_IMAGE).

(** Events that are neither a raise, nor a print, nor an ERROR record. *)
Definition quiet_event (ev : event) : bool :=
  match ev with
  | EvRaise _ | EvPrint _ | EvLog ERROR _ => false
  | _ => true
  end.

Definition quiet (evs : list event) : Prop := forallb quiet_event evs = true.

(** A computation that handles no exception itself: it returns after quiet
    events only, or it raises [e] after quiet events only, and raising [e]
    is the last thing it does. *)
Definition propagates {A : Type} (m : IO A) : Prop :=
  forall tr : trace,
    exists evs, quiet evs /\
      match m tr with
      | (inr _, tr') => tr' = (tr ++ evs)%list
      | (inl e, tr') => tr' = (tr ++ evs ++ [EvRaise e])%list
      end.

(** The notice of the [__main__] block. *)
Definition INTERRUPTED : string := "Interrupted by user.".

(** Two rows of 2020 after one of 2019. *)
Definition INDEX_2020 : list (list byte) :=
  [bytes ("<b>Index</b>" ++ chr newline);
   bytes ("2020 January 16:  <a href=" ++ quoted "ap200116.html"
          ++ ">A video</a><br>" ++ chr newline);
   bytes ("2020 January 15:  <a href=" ++ quoted "ap200115.html"
          ++ ">Title</a><br>" ++ chr newline);
   ROW_2019].

Definition REFUSED : string := "<urlopen error [Errno 111] Connection refused>".

(** The index and the first page are served, the second page is not. *)
Definition net_page_down (tr : trace) (url : string)
    : exn + gen (list byte) :=
  if String.eqb url URL_BASE then inr (gen_of_list INDEX_2020)
  else if String.eqb url "https://apod.nasa.gov/apod/ap200116.html"
  then inr (gen_of_list PAGE_NO_IMAGE)
  else inl (URLError REFUSED).

(** The operator interrupts while the first page is being read. *)
Definition net_interrupted (tr : trace) (url : string)
    : exn + gen (list byte) :=
  if String.eqb url URL_BASE then inr (gen_of_list INDEX_2020)
  else inr (Yield (bytes ("<html>" ++ chr newline)) (Raise KeyboardInterrupt)).


(** Whether a text contains a '/'. *)
Fixpoint has_slash (s : string) : bool :=
  match s with
  | String c s' => Ascii.eqb c "/" || has_slash s'
  | "" => false
  end.

(** The parent as the docstring words it: the part after and including the
    last '/' removed; a text without '/' is left as it is. *)
Fixpoint parent_by_the_words (url : string) : string :=
  match url with
  | String c s' =>
      if has_slash s' then String c (parent_by_the_words s')
      else if Ascii.eqb c "/" then "" else url
  | "" => ""
  end.

(** The compiled pattern of [get_parent_url]. *)
Definition PARENT : Pattern := mkPattern PARENT_OPS false.

(** ** Vocabulary of the further properties *)

(** The items of a list, then whatever [g] gives. *)
Fixpoint gen_app {A : Type} (l : list A) (g : gen A) : gen A :=
  match l with
  | [] => g
  | a :: l' => Yield a (gen_app l' g)
  end.

(** Whether every character of a text satisfies a test. *)
Fixpoint every (p : ascii -> bool) (s : string) : bool :=
  match s with
  | String c s' => p c && every p s'
  | "" => true
  end.

Definition not_char (x : ascii) (c : ascii) : bool := negb (Ascii.eqb c x).

(** The index breaks off after two rows. *)
Definition net_broken_index (tr : trace) (url : string)
    : exn + gen (list byte) :=
  inr (gen_app [ROW_BELOW; ROW_ABOVE]
         (Raise (OSError "Connection reset by peer"))).

(** An index row of 1995. *)
Definition ROW_1995 : list byte :=
  bytes ("1995 June 16:  <a href=" ++ quoted "ap950616.html"
         ++ ">Neutron star Earth</a><br>" ++ chr newline).


(** The opening of a link tag, as the index-row pattern spells it. *)
Definition A_TAG : string := "<a href=" ++ chr dquote.

(** What the Director does for one entry: the body of the loop of
    [save_images]. *)
Definition entry_step (net : trace -> string -> exn + gen (list byte))
    (fs : trace -> string -> string -> option exn) (sigint : trace -> bool)
    (en : entry) (base_url : string) : IO unit :=
  let '(when, link, title) := en in
  logging_info sigint ("Got link to page for " ++ when ++ ": " ++ title) ;;
  img_link <- find_image_on_page net (url_page base_url link) ;;
  match img_link with
  | Some img =>
      logging_info sigint ("Image found at " ++ img) ;;
      save_image_from_url net fs (url_img base_url img) (filename link) "./"
  | None => ret tt
  end.

(** One computation after the other, as far as the first goes well. *)
Definition and_then (m : IO unit) (k : IO unit) : IO unit := m ;; k.

(** The page breaks off after its first image line. *)
Definition net_broken_page (tr : trace) (url : string)
    : exn + gen (list byte) :=
  inr (gen_app
         [bytes ("<IMG SRC=" ++ quoted "image/2001/full.jpg" ++ chr newline)]
         (Raise (OSError "Connection reset by peer"))).

(** The index has one row of 2020, its page has an image, and the disk is
    full. *)
Definition net_one_row (tr : trace) (url : string) : exn + gen (list byte) :=
  if String.eqb url URL_BASE then inr (gen_of_list [ROW_ABOVE])
  else net_one_entry tr url.

Definition fs_full (tr : trace) (folder name : string) : option exn :=
  Some (OSError "No space left on device").

(** An index without any row of the range. *)
Definition net_old_index (tr : trace) (url : string) : exn + gen (list byte) :=
  inr (gen_of_list [bytes ("<b>Index</b>" ++ chr newline); ROW_2019]).

(** What a run shows for one entry when every document is served, nobody
    interrupts and the disk accepts everything: the link is logged and the
    page opened; if the page has an image reference, that is logged, the
    image opened and written under the name made from the link. *)
Definition entry_events (served : string -> list (list byte))
    (base_url : string) (en : entry) : list event :=
  let '(when, link, title) := en in
  ([EvLog INFO ("Got link to page for " ++ when ++ ": " ++ title);
    EvUrlopen (url_page base_url link)]
   ++ match last (map Some (captures (served (url_page base_url link)))) None with
      | Some img =>
          [EvLog INFO ("Image found at " ++ img);
           EvUrlopen (url_img base_url img);
           EvOpen "./" (filename link);
           EvWrite "./" (filename link)
             (concat (served (url_img base_url img)))]
      | None => []
      end)%list.

(** A small archive: an index of four lines, one page with two image tags,
    one page without, and the image. *)
Definition small_archive (url : string) : list (list byte) :=
  if String.eqb url URL_BASE then INDEX_2020
  else if String.eqb url "https://apod.nasa.gov/apod/ap200115.html"
  then PAGE_TWO_IMAGES
  else if String.eqb url "https://apod.nasa.gov/apod/ap200116.html"
  then PAGE_NO_IMAGE
  else [bytes "JFIF"; bytes "data"].

Definition net_small_archive (tr : trace) (url : string)
    : exn + gen (list byte) :=
  inr (gen_of_list (small_archive url)).

(** The number a text of decimal digits writes. *)
Fixpoint num_of (s : string) : nat :=
  match s with
  | String c s' => digit_value c * 10 ^ String.length s' + num_of s'
  | "" => 0
  end.

(** An ISO 8601 date from its eight digits. *)
Definition iso_date (y1 y2 y3 y4 m1 m2 d1 d2 : ascii) : string :=
  String y1 (String y2 (String y3 (String y4 (String "-"
    (String m1 (String m2 (String "-" (String d1 (String d2 ""))))))))).

(** The connection breaks while the index is read, after its first row;
    the page of that row is served and has no image. *)
Definition RESET : string := "[Errno 104] Connection reset by peer".

Definition net_index_reset (tr : trace) (url : string)
    : exn + gen (list byte) :=
  if String.eqb url URL_BASE
  then inr (gen_app [ROW_ABOVE] (Raise (OSError RESET)))
  else inr (gen_of_list PAGE_NO_IMAGE).

(** * Properties *)

(** ** The compiled patterns *)

Lemma PATTERN_SUBPAGE_ops :
  re_compile PATTERN_SUBPAGE false = mkPattern SUBPAGE_OPS false.
Proof. reflexivity. Qed.

Lemma PATTERN_IMAGE_ops :
  re_compile PATTERN_IMAGE true = mkPattern IMAGE_OPS true.
Proof. reflexivity. Qed.

Lemma parent_ops : re_compile "/[^/]+$" false = mkPattern PARENT_OPS false.
Proof. reflexivity. Qed.

(** ** Groups of a match *)

Lemma greedy_marks (ic : bool) (k : cont) (n : nat) :
  (forall pos s ms r, k pos s ms = Some r -> length (snd r) = length ms + n) ->
  forall s cs lo hi pos ms r,
    greedy ic k cs lo hi pos s ms = Some r -> length (snd r) = length ms + n.
Proof.
  intros Hk s.
  induction s as [|c s IH]; intros cs lo hi pos ms r H; simpl in H.
  - destruct lo; [eauto | discriminate].
  - destruct (cs_mem ic cs c && _).
    + destruct (greedy ic k cs (Nat.pred lo) (option_map Nat.pred hi)
                  (S pos) s ms) eqn:E.
      * inversion H; subst. eauto.
      * destruct lo; [eauto | discriminate].
    + destruct lo; [eauto | discriminate].
Qed.

Lemma run_marks (ic : bool) :
  forall os pos s ms r,
    run ic os pos s ms = Some r ->
    length (snd r) = length ms + count_marks os.
Proof.
  induction os as [|o os IH]; intros pos s ms r H; simpl in H.
  - inversion H; subst; simpl; lia.
  - destruct o; simpl.
    + destruct (pos =? 0); [eauto | discriminate].
    + destruct (at_end s); [eauto | discriminate].
    + destruct s as [|c s]; [discriminate|].
      destruct (cs_mem ic cs c); [eauto | discriminate].
    + eapply greedy_marks; [|exact H]. intros; eauto.
    + apply IH in H. rewrite H, length_app. simpl. lia.
Qed.

Lemma subpage_three_groups (line : string) (gs : list string) :
  re_match (re_compile PATTERN_SUBPAGE false) line = Some gs ->
  exists when link title, gs = [when; link; title].
Proof.
  rewrite PATTERN_SUBPAGE_ops. unfold re_match. simpl ignorecase. simpl ops.
  destruct (run false SUBPAGE_OPS 0 line []) as [[e ms]|] eqn:E; [|discriminate].
  intros H. inversion H; subst. apply run_marks in E. simpl in E.
  destruct ms as [|a [|b [|c [|d [|f [|g [|h ms]]]]]]]; simpl in E; try lia.
  simpl. eauto.
Qed.

Lemma image_one_group (line : string) (gs : list string) :
  re_match (re_compile PATTERN_IMAGE true) line = Some gs ->
  exists ref, gs = [ref].
Proof.
  rewrite PATTERN_IMAGE_ops. unfold re_match. simpl ignorecase. simpl ops.
  destruct (run true IMAGE_OPS 0 line []) as [[e ms]|] eqn:E; [|discriminate].
  intros H. inversion H; subst. apply run_marks in E. simpl in E.
  destruct ms as [|a [|b [|c ms]]]; simpl in E; try lia.
  simpl. eauto.
Qed.

(** ** The Archive Index Reader *)

(** C1, as amended.  The threshold [load_archive] compares links with is
    "ap" followed by the start date without its '-' separators and without
    its first two characters ("ap200101" for 2020-01-01).  With the pattern
    [main] passes, every line of the index falls in exactly one of two
    cases: it matches the index-row pattern and its link is [>=] that
    threshold, and then its entry is yielded, before whatever the following
    lines yield; or it does not match or its link is below the threshold,
    and then nothing is yielded for it. *)
Theorem load_archive_yields_iff :
  forall (date_start : string) (item : list byte) (rest : gen (list byte)),
    let pattern := re_compile PATTERN_SUBPAGE false in
    let page_start := page_start_of date_start in
    let line := strip (decode_latin1 item) in
    page_start = "ap" ++ pageStart_by_the_words date_start /\
    page_start_of "2020-01-01" = "ap200101" /\
    ((exists when link title,
         re_match pattern line = Some [when; link; title] /\
         String.leb page_start link = true /\
         load_archive_lines pattern page_start (Yield item rest)
         = Yield (when, link, title)
             (load_archive_lines pattern page_start rest))
     \/
     ((re_match pattern line = None \/
       exists when link title,
         re_match pattern line = Some [when; link; title] /\
         String.leb page_start link = false) /\
      load_archive_lines pattern page_start (Yield item rest)
      = load_archive_lines pattern page_start rest)).
Proof.
  intros date_start item rest pattern page_start line.
  split; [reflexivity|]. split; [reflexivity|].
  simpl load_archive_lines. fold line.
  destruct (re_match pattern line) as [gs|] eqn:M.
  - destruct (subpage_three_groups _ _ M) as (w & l & t & ->).
    destruct (String.leb page_start l) eqn:L.
    + left. exists w, l, t. auto.
    + right. split; [right; exists w, l, t; auto | reflexivity].
  - right. split; [left; reflexivity | reflexivity].
Qed.

(** C1, as the claim states it, fails: with the start date 2020-01-01 the
    row of 2019-12-31 matches the pattern and its link "ap191231.html" is
    [>=] "200101" byte-wise, yet [load_archive] yields nothing for it. *)
Lemma load_archive_threshold_counterexample :
  re_match (re_compile PATTERN_SUBPAGE false) (strip (decode_latin1 ROW_2019))
  = Some ["2019 December 31"; "ap191231.html"; "Old light"] /\
  pageStart_by_the_words "2020-01-01" = "200101" /\
  String.leb (pageStart_by_the_words "2020-01-01") "ap191231.html" = true /\
  load_archive_lines (re_compile PATTERN_SUBPAGE false)
    (page_start_of "2020-01-01") (Yield ROW_2019 Stop) = Stop.
Proof. repeat split; vm_compute; reflexivity. Qed.

Lemma load_archive_lines_of_list (page_start : string) :
  forall items,
    load_archive_lines (re_compile PATTERN_SUBPAGE false) page_start
      (gen_of_list items)
    = gen_of_list (flat_map (yielded page_start) items).
Proof.
  induction items as [|item items IH]; [reflexivity|].
  simpl. unfold yielded at 1.
  destruct (re_match _ (strip (decode_latin1 item))) as [gs|] eqn:M.
  - destruct (subpage_three_groups _ _ M) as (w & l & t & ->).
    destruct (String.leb page_start l); simpl; rewrite IH; reflexivity.
  - exact IH.
Qed.

Lemma ltb_not_leb (a b : string) :
  String.ltb a b = true -> String.leb b a = false.
Proof.
  unfold String.ltb, String.leb. rewrite (String.compare_antisym b a).
  destruct (String.compare a b); simpl; congruence.
Qed.

Lemma load_archive_opened (net : trace -> string -> exn + gen (list byte))
    (url : string) (pattern : Pattern) (date_start : string) (tr : trace)
    (f : gen (list byte)) :
  net tr url = inr f ->
  load_archive net url pattern date_start tr
  = (inr (load_archive_lines pattern (page_start_of date_start) f),
     (tr ++ [EvUrlopen url])%list).
Proof.
  intros H. unfold load_archive, bind, urlopen. rewrite H. reflexivity.
Qed.

(** C2.  The index served is three lines, in any order: the line
    [200101xx: <a href="ap200101.html">Title A</a>], a row whose link is
    below the threshold of the start date 2020-01-02 and a row whose link is
    at or above it.  [load_archive] then produces exactly one entry, the one
    of the row above the threshold. *)
Theorem load_archive_three_line_index :
  forall (net : trace -> string -> exn + gen (list byte)) (tr : trace)
         (url : string) (below above : list byte) (doc : list (list byte))
         (w1 l1 t1 w2 l2 t2 : string),
    re_match (re_compile PATTERN_SUBPAGE false) (strip (decode_latin1 below))
    = Some [w1; l1; t1] ->
    String.ltb l1 (page_start_of "2020-01-02") = true ->
    re_match (re_compile PATTERN_SUBPAGE false) (strip (decode_latin1 above))
    = Some [w2; l2; t2] ->
    String.leb (page_start_of "2020-01-02") l2 = true ->
    Permutation doc [ROW_A; below; above] ->
    net tr url = inr (gen_of_list doc) ->
    load_archive net url (re_compile PATTERN_SUBPAGE false) "2020-01-02" tr
    = (inr (gen_of_list [(w2, l2, t2)]), (tr ++ [EvUrlopen url])%list).
Proof.
  intros net tr url below above doc w1 l1 t1 w2 l2 t2 Mb Lb Ma La P N.
  rewrite (load_archive_opened _ _ _ _ _ _ N), load_archive_lines_of_list.
  enough (E : flat_map (yielded (page_start_of "2020-01-02")) doc
              = [(w2, l2, t2)]) by (rewrite E; reflexivity).
  apply Permutation_length_1_inv, Permutation_sym.
  eapply Permutation_trans;
    [apply (Permutation_flat_map (yielded (page_start_of "2020-01-02")) P)|].
  cbn [flat_map].
  replace (yielded (page_start_of "2020-01-02") ROW_A) with (@nil entry)
    by (vm_compute; reflexivity).
  unfold yielded. rewrite Mb, Ma, La, (ltb_not_leb _ _ Lb).
  apply Permutation_refl.
Qed.

Lemma load_archive_three_line_index_witness :
  load_archive net_fake_index URL_BASE (re_compile PATTERN_SUBPAGE false)
    "2020-01-02" []
  = (inr (gen_of_list [("200115xx", "ap200115.html", "Title C")]),
     [EvUrlopen URL_BASE]).
Proof.
  apply (load_archive_three_line_index net_fake_index [] URL_BASE
           ROW_BELOW ROW_ABOVE [ROW_BELOW; ROW_ABOVE; ROW_A]
           "191231xx" "ap191231.html" "Title B").
  - vm_compute; reflexivity.
  - vm_compute; reflexivity.
  - vm_compute; reflexivity.
  - vm_compute; reflexivity.
  - apply Permutation_sym, (Permutation_cons_app [ROW_BELOW; ROW_ABOVE] []),
      Permutation_refl.
  - reflexivity.
Defined.

(** ** The Page Image Locator *)

Lemma last_cons {A : Type} (a d : A) (l : list A) :
  last (a :: l) d = last l a.
Proof.
  revert a d. induction l as [|b l IH]; intros a d; [reflexivity|].
  change (last (a :: b :: l) d) with (last (b :: l) d).
  rewrite !IH. reflexivity.
Qed.

Lemma find_image_lines_captures :
  forall items result,
    find_image_lines result (gen_of_list items)
    = inr (last (map Some (captures items)) result).
Proof.
  induction items as [|item items IH]; intros result; [reflexivity|].
  change (captures (item :: items))
    with ((match image_match item with
           | Some (g :: _) => [g]
           | _ => []
           end) ++ captures items)%list.
  simpl find_image_lines. fold (image_match item).
  destruct (image_match item) as [gs|] eqn:M.
  - destruct (image_one_group _ _ M) as (ref & ->).
    rewrite IH. cbn [app map]. rewrite last_cons. reflexivity.
  - apply IH.
Qed.

Lemma find_image_lines_none :
  forall items result,
    (forall x, In x items -> image_match x = None) ->
    find_image_lines result (gen_of_list items) = inr result.
Proof.
  induction items as [|item items IH]; intros result H; [reflexivity|].
  simpl. fold (image_match item). rewrite (H item (or_introl eq_refl)).
  apply IH. intros x Hx. apply H. right. exact Hx.
Qed.

Lemma find_image_lines_last (item : list byte) (ref : string)
    (after : list (list byte)) :
  image_match item = Some [ref] ->
  (forall x, In x after -> image_match x = None) ->
  forall before result,
    find_image_lines result (gen_of_list (before ++ item :: after)%list)
    = inr (Some ref).
Proof.
  intros M A.
  induction before as [|b before IH]; intros result.
  - simpl. fold (image_match item). rewrite M.
    apply find_image_lines_none. exact A.
  - simpl. fold (image_match b).
    destruct (image_match b) as [gs|] eqn:Mb.
    + destruct (image_one_group _ _ Mb) as (r & ->). apply IH.
    + apply IH.
Qed.

Lemma find_image_lines_cases :
  forall items result,
    exists r,
      find_image_lines result (gen_of_list items) = inr r /\
      ((r = result /\ forall x, In x items -> image_match x = None) \/
       exists before item after ref,
         items = (before ++ item :: after)%list /\
         image_match item = Some [ref] /\
         (forall x, In x after -> image_match x = None) /\
         r = Some ref).
Proof.
  induction items as [|item items IH]; intros result.
  - exists result. split; [reflexivity|]. left. split; [reflexivity|].
    intros x [].
  - simpl. fold (image_match item).
    destruct (image_match item) as [gs|] eqn:M.
    + destruct (image_one_group _ _ M) as (ref & ->).
      destruct (IH (Some ref)) as (r & E & [[-> N]|(b & i & a & r' & -> & Mi & A & ->)]).
      * exists (Some ref). split; [exact E|]. right.
        exists [], item, items, ref. auto.
      * exists (Some r'). split; [exact E|]. right.
        exists (item :: b), i, a, r'. auto.
    + destruct (IH result) as (r & E & [[-> N]|(b & i & a & r' & -> & Mi & A & ->)]).
      * exists result. split; [exact E|]. left. split; [reflexivity|].
        intros x [<-|Hx]; [exact M | apply N, Hx].
      * exists (Some r'). split; [exact E|]. right.
        exists (item :: b), i, a, r'. auto.
Qed.

(** C3.  When the page is served as the lines [items],
    [find_image_on_page] returns the capture of the last line, in document
    order, that matches the image-reference pattern, and [None] when no line
    matches; when the matching lines capture [refA] then [refB], it returns
    [refB]. *)
Theorem find_image_on_page_last_match :
  forall (net : trace -> string -> exn + gen (list byte)) (tr : trace)
         (page_url : string) (items : list (list byte)),
    net tr page_url = inr (gen_of_list items) ->
    exists result,
      find_image_on_page net page_url tr
      = (inr result, (tr ++ [EvUrlopen page_url])%list) /\
      result = last (map Some (captures items)) None /\
      (forall ref,
          result = Some ref <->
          exists before item after,
            items = (before ++ item :: after)%list /\
            image_match item = Some [ref] /\
            forall x, In x after -> image_match x = None) /\
      (result = None <-> forall x, In x items -> image_match x = None) /\
      (forall refA refB, captures items = [refA; refB] -> result = Some refB).
Proof.
  intros net tr page_url items N.
  exists (last (map Some (captures items)) None).
  assert (R : find_image_lines None (gen_of_list items)
              = inr (last (map Some (captures items)) None))
    by apply find_image_lines_captures.
  split.
  { unfold find_image_on_page, bind, urlopen. rewrite N, R. reflexivity. }
  split; [reflexivity|].
  destruct (find_image_lines_cases items None)
    as (r & E & C). rewrite R in E. inversion E as [E']. clear E.
  repeat split.
  - intros H. destruct C as [[-> _]|(b & i & a & r' & -> & Mi & A & ->)].
    + rewrite H in E'. discriminate.
    + rewrite E' in H. inversion H; subst. exists b, i, a. auto.
  - intros (b & i & a & -> & Mi & A).
    rewrite (find_image_lines_last i ref a Mi A b None) in R.
    congruence.
  - intros H. destruct C as [[-> Hn]|(b & i & a & r' & -> & Mi & A & ->)].
    + exact Hn.
    + rewrite H in E'. discriminate.
  - intros Hn. rewrite (find_image_lines_none items None Hn) in R.
    congruence.
  - intros refA refB Hc. rewrite Hc. reflexivity.
Qed.

Lemma find_image_on_page_last_match_witness :
  exists result,
    find_image_on_page net_two_images "https://apod.nasa.gov/apod/ap200115.html" []
    = (inr result, [EvUrlopen "https://apod.nasa.gov/apod/ap200115.html"]) /\
    result = Some "image/2001/full.jpg".
Proof.
  destruct (find_image_on_page_last_match net_two_images []
              "https://apod.nasa.gov/apod/ap200115.html" PAGE_TWO_IMAGES
              eq_refl) as (result & E & R & _).
  exists result. split; [exact E|]. rewrite R. vm_compute. reflexivity.
Defined.

(** ** The Pipeline Director *)

Lemma logging_info_calm (sigint : trace -> bool) (msg : string) (tr : trace) :
  sigint tr = false ->
  logging_info sigint msg tr = (inr tt, (tr ++ [EvLog INFO msg])%list).
Proof.
  intros H. unfold logging_info, bind, checkpoint. rewrite H. reflexivity.
Qed.

Lemma find_image_on_page_served
    (net : trace -> string -> exn + gen (list byte)) (page_url : string)
    (tr : trace) (items : list (list byte)) :
  net tr page_url = inr (gen_of_list items) ->
  find_image_on_page net page_url tr
  = (inr (last (map Some (captures items)) None),
     (tr ++ [EvUrlopen page_url])%list).
Proof.
  intros N. unfold find_image_on_page, bind, urlopen.
  rewrite N, find_image_lines_captures. reflexivity.
Qed.

Lemma read_of_list (chunks : list (list byte)) :
  read (gen_of_list chunks) = inr (concat chunks).
Proof.
  induction chunks as [|c chunks IH]; [reflexivity|].
  simpl. rewrite IH. reflexivity.
Qed.

Lemma save_image_from_url_served
    (net : trace -> string -> exn + gen (list byte))
    (fs : trace -> string -> string -> option exn)
    (url name folder : string) (tr : trace) (chunks : list (list byte)) :
  net tr url = inr (gen_of_list chunks) ->
  fs (tr ++ [EvUrlopen url])%list folder name = None ->
  fs (tr ++ [EvUrlopen url; EvOpen folder name])%list folder name = None ->
  save_image_from_url net fs url name folder tr
  = (inr tt,
     (tr ++ [EvUrlopen url; EvOpen folder name;
             EvWrite folder name (concat chunks)])%list).
Proof.
  intros N F1 F2. unfold save_image_from_url, bind, urlopen, open_wb, write.
  rewrite N, F1, read_of_list. cbn [lift ret].
  rewrite <- !app_assoc. cbn [app]. rewrite F2.
  reflexivity.
Qed.

(** C4, as amended.  The Director joins by plain concatenation: the base, one
    '/', the relative link, for page and image URLs alike; "https://example.com/apod/archive"
    and "ap200115.html" give "https://example.com/apod/archive/ap200115.html".
    That is the separator-safe join whenever the base does not end with '/'
    and the link does not start with '/'. *)
Theorem url_join_concatenates :
  forall base link : string,
    url_page base link = base ++ "/" ++ link /\
    url_img base link = base ++ "/" ++ link /\
    url_page "https://example.com/apod/archive" "ap200115.html"
    = "https://example.com/apod/archive/ap200115.html" /\
    (rstrip_slashes base = base -> lstrip_slashes link = link ->
     url_page base link = separator_safe_join base link).
Proof.
  intros base link. repeat split.
  intros Hb Hl. unfold separator_safe_join. rewrite Hb, Hl. reflexivity.
Qed.

Lemma url_join_concatenates_witness :
  url_page "https://apod.nasa.gov/apod" "ap200115.html"
  = separator_safe_join "https://apod.nasa.gov/apod" "ap200115.html".
Proof.
  apply (url_join_concatenates "https://apod.nasa.gov/apod" "ap200115.html");
    reflexivity.
Defined.

(** C4, as the claim states it, fails: a base that ends with '/' gives a
    doubled separator. *)
Lemma url_join_counterexample :
  url_page "https://example.com/apod/archive/" "ap200115.html"
  = "https://example.com/apod/archive//ap200115.html" /\
  separator_safe_join "https://example.com/apod/archive/" "ap200115.html"
  = "https://example.com/apod/archive/ap200115.html" /\
  url_page "https://example.com/apod/archive/" "ap200115.html"
  <> separator_safe_join "https://example.com/apod/archive/" "ap200115.html".
Proof. repeat split. vm_compute. discriminate. Qed.

(** C5.  The file name is "image_", the characters of the link at positions
    2 to 7 (as many of them as the link has), ".jpg"; "ap200115.html" gives
    "image_200115.jpg".  It does not depend on the image reference: whatever
    reference [img] the page of an entry gives, the image fetched from
    [base_url/img] is written under that name. *)
Theorem filename_from_link :
  forall (net : trace -> string -> exn + gen (list byte))
         (fs : trace -> string -> string -> option exn)
         (sigint : trace -> bool)
         (when link title img base_url : string) (rest : gen entry)
         (items chunks : list (list byte)) (tr : trace),
    (forall t, sigint t = false) ->
    (forall t, fs t "./" (filename link) = None) ->
    (forall t, net t (url_page base_url link) = inr (gen_of_list items)) ->
    last (map Some (captures items)) None = Some img ->
    (forall t, net t (url_img base_url img) = inr (gen_of_list chunks)) ->
    filename link = "image_" ++ substring 2 6 link ++ ".jpg" /\
    (forall i, i < 6 ->
       String.get i (substring 2 6 link) = String.get (2 + i) link) /\
    filename "ap200115.html" = "image_200115.jpg" /\
    save_images_loop net fs sigint (Yield (when, link, title) rest) base_url tr
    = save_images_loop net fs sigint rest base_url
        (tr ++ [EvLog INFO ("Got link to page for " ++ when ++ ": " ++ title);
                EvUrlopen (base_url ++ "/" ++ link);
                EvLog INFO ("Image found at " ++ img);
                EvUrlopen (base_url ++ "/" ++ img);
                EvOpen "./" ("image_" ++ substring 2 6 link ++ ".jpg");
                EvWrite "./" ("image_" ++ substring 2 6 link ++ ".jpg")
                  (concat chunks)])%list.
Proof.
  intros net fs sigint when link title img base_url rest items chunks tr
         S F Np L Ni.
  split; [reflexivity|]. split.
  { intros i Hi. rewrite Nat.add_comm. apply substring_correct1. exact Hi. }
  split; [reflexivity|].
  cbn [save_images_loop]. unfold bind at 1.
  rewrite (logging_info_calm _ _ _ (S _)).
  unfold bind at 1.
  rewrite (find_image_on_page_served _ _ _ _ (Np _)), L.
  unfold bind at 1. unfold bind at 1.
  rewrite (logging_info_calm _ _ _ (S _)).
  rewrite (save_image_from_url_served _ _ _ _ _ _ _ (Ni _) (F _) (F _)).
  rewrite <- !app_assoc. reflexivity.
Qed.

(** C6.  When the page of an entry is served and none of its lines matches
    the image-reference pattern, [find_image_on_page] returns [None] and the
    Director goes on with the next entry: for this entry the run has logged
    the link and opened the page, and nothing else -- no image URL opened, no
    file written, nothing raised. *)
Theorem no_image_skips_entry :
  forall (net : trace -> string -> exn + gen (list byte))
         (fs : trace -> string -> string -> option exn)
         (sigint : trace -> bool)
         (when link title base_url : string) (rest : gen entry)
         (items : list (list byte)) (tr : trace),
    let found :=
      (tr ++ [EvLog INFO ("Got link to page for " ++ when ++ ": " ++ title)])%list
    in
    sigint tr = false ->
    net found (url_page base_url link) = inr (gen_of_list items) ->
    (forall x, In x items -> image_match x = None) ->
    find_image_on_page net (url_page base_url link) found
    = (inr None, (found ++ [EvUrlopen (url_page base_url link)])%list) /\
    save_images_loop net fs sigint (Yield (when, link, title) rest) base_url tr
    = save_images_loop net fs sigint rest base_url
        (found ++ [EvUrlopen (url_page base_url link)])%list.
Proof.
  intros net fs sigint when link title base_url rest items tr found S N H.
  assert (E : find_image_on_page net (url_page base_url link) found
              = (inr None, (found ++ [EvUrlopen (url_page base_url link)])%list)).
  { unfold find_image_on_page, bind, urlopen.
    rewrite N, (find_image_lines_none items None H). reflexivity. }
  split; [exact E|].
  cbn [save_images_loop]. unfold bind at 1.
  rewrite (logging_info_calm _ _ _ S).
  unfold bind at 1. fold found. rewrite E.
  reflexivity.
Qed.

Lemma filename_from_link_witness :
  save_images_loop net_one_entry fs_ok calm
    (Yield ("2020 January 15", "ap200115.html", "Title") Stop)
    "https://apod.nasa.gov/apod" []
  = (inr tt,
     [EvLog INFO "Got link to page for 2020 January 15: Title";
      EvUrlopen "https://apod.nasa.gov/apod/ap200115.html";
      EvLog INFO "Image found at image/2001/full.jpg";
      EvUrlopen "https://apod.nasa.gov/apod/image/2001/full.jpg";
      EvOpen "./" "image_200115.jpg";
      EvWrite "./" "image_200115.jpg" (bytes "JFIFdata")]).
Proof.
  assert (L : last (map Some (captures PAGE_TWO_IMAGES)) None
              = Some "image/2001/full.jpg") by (vm_compute; reflexivity).
  destruct (filename_from_link net_one_entry fs_ok calm
              "2020 January 15" "ap200115.html" "Title"
              "image/2001/full.jpg" "https://apod.nasa.gov/apod" Stop
              PAGE_TWO_IMAGES [bytes "JFIF"; bytes "data"] []
              (fun t => eq_refl) (fun t => eq_refl) (fun t => eq_refl) L
              (fun t => eq_refl))
    as (_ & _ & _ & E).
  etransitivity; [exact E | reflexivity].
Defined.

Lemma no_image_skips_entry_witness :
  save_images_loop net_no_image fs_ok calm
    (Yield ("2020 January 16", "ap200116.html", "A video") Stop)
    "https://apod.nasa.gov/apod" []
  = (inr tt,
     [EvLog INFO "Got link to page for 2020 January 16: A video";
      EvUrlopen "https://apod.nasa.gov/apod/ap200116.html"]).
Proof.
  assert (H : forall x, In x PAGE_NO_IMAGE -> image_match x = None).
  { intros x Hx. simpl in Hx.
    repeat (destruct Hx as [<-|Hx]; [vm_compute; reflexivity|]).
    destruct Hx. }
  destruct (no_image_skips_entry net_no_image fs_ok calm
              "2020 January 16" "ap200116.html" "A video"
              "https://apod.nasa.gov/apod" Stop PAGE_NO_IMAGE []
              eq_refl eq_refl H)
    as (_ & E).
  etransitivity; [exact E | reflexivity].
Defined.

(** ** Exceptions on the way out

    Everything below [main] [propagates]: either it returns, and then
    nothing was raised while it ran, or it raises [e], and then raising [e]
    was the one raise and the last thing that happened.  In both cases it
    printed nothing and logged no error. *)

Lemma quiet_app (a b : list event) : quiet a -> quiet b -> quiet (a ++ b)%list.
Proof.
  unfold quiet. intros Ha Hb. rewrite forallb_app, Ha, Hb. reflexivity.
Qed.

Lemma quiet_In (evs : list event) (ev : event) :
  quiet evs -> In ev evs -> quiet_event ev = true.
Proof.
  unfold quiet. rewrite forallb_forall. auto.
Qed.

Lemma propagates_ret {A : Type} (a : A) : propagates (ret a).
Proof.
  intros tr. exists []. split; [reflexivity|].
  simpl. rewrite app_nil_r. reflexivity.
Qed.

Lemma propagates_raise {A : Type} (e : exn) : propagates (@raise A e).
Proof. intros tr. exists []. split; reflexivity. Qed.

Lemma propagates_emit (ev : event) :
  quiet_event ev = true -> propagates (emit ev).
Proof.
  intros H tr. exists [ev]. split; [|reflexivity].
  unfold quiet. simpl. rewrite H. reflexivity.
Qed.

Lemma propagates_lift {A : Type} (r : exn + A) : propagates (lift r).
Proof. destruct r; [apply propagates_raise | apply propagates_ret]. Qed.

Lemma propagates_bind {A B : Type} (m : IO A) (f : A -> IO B) :
  propagates m -> (forall a, propagates (f a)) -> propagates (bind m f).
Proof.
  intros Hm Hf tr. unfold bind.
  destruct (Hm tr) as (evs & Q & E).
  destruct (m tr) as [[e|a] tr'].
  - exists evs. split; assumption.
  - subst tr'. destruct (Hf a (tr ++ evs)%list) as (evs' & Q' & E').
    exists (evs ++ evs')%list. split; [apply quiet_app; assumption|].
    destruct (f a (tr ++ evs)%list) as [[e|b] tr'']; subst tr'';
      rewrite <- !app_assoc; reflexivity.
Qed.

Section Propagation.

Variable net : trace -> string -> exn + gen (list byte).
Variable fs : trace -> string -> string -> option exn.
Variable sigint : trace -> bool.

Lemma propagates_urlopen (url : string) : propagates (urlopen net url).
Proof.
  intros tr. exists [EvUrlopen url]. split; [reflexivity|].
  unfold urlopen, raise. destruct (net tr url);
    rewrite <- ?app_assoc; reflexivity.
Qed.

Lemma propagates_open_wb (folder name : string) :
  propagates (open_wb fs folder name).
Proof.
  intros tr. exists [EvOpen folder name]. split; [reflexivity|].
  unfold open_wb, raise. destruct (fs tr folder name);
    rewrite <- ?app_assoc; reflexivity.
Qed.

Lemma propagates_write (folder name : string) (data : list byte) :
  propagates (write fs folder name data).
Proof.
  intros tr. exists [EvWrite folder name data]. split; [reflexivity|].
  unfold write, raise. destruct (fs tr folder name);
    rewrite <- ?app_assoc; reflexivity.
Qed.

Lemma propagates_checkpoint : propagates (checkpoint sigint).
Proof.
  intros tr. exists []. split; [reflexivity|].
  unfold checkpoint, raise, ret. destruct (sigint tr);
    rewrite ?app_nil_r; reflexivity.
Qed.

Lemma propagates_logging_info (msg : string) :
  propagates (logging_info sigint msg).
Proof.
  apply propagates_bind; [apply propagates_checkpoint|].
  intros _. apply propagates_emit. reflexivity.
Qed.

Lemma propagates_load_archive (url : string) (pattern : Pattern)
    (date_start : string) :
  propagates (load_archive net url pattern date_start).
Proof.
  apply propagates_bind; [apply propagates_urlopen|].
  intros f. apply propagates_ret.
Qed.

Lemma propagates_find_image_on_page (page_url : string) :
  propagates (find_image_on_page net page_url).
Proof.
  apply propagates_bind; [apply propagates_urlopen|].
  intros page. apply propagates_lift.
Qed.

Lemma propagates_save_image_from_url (url name folder : string) :
  propagates (save_image_from_url net fs url name folder).
Proof.
  apply propagates_bind; [apply propagates_urlopen|]. intros page.
  apply propagates_bind; [apply propagates_open_wb|]. intros _.
  apply propagates_bind; [apply propagates_lift|]. intros data.
  apply propagates_write.
Qed.

Lemma propagates_save_images_loop (base_url : string) :
  forall pages, propagates (save_images_loop net fs sigint pages base_url).
Proof.
  induction pages as [|[[when link] title] rest IH|e].
  - apply propagates_ret.
  - cbn [save_images_loop].
    apply propagates_bind; [apply propagates_logging_info|]. intros _.
    apply propagates_bind; [apply propagates_find_image_on_page|].
    intros [img|].
    + apply propagates_bind; [|intros _; exact IH].
      apply propagates_bind; [apply propagates_logging_info|]. intros _.
      apply propagates_save_image_from_url.
    + apply propagates_bind; [apply propagates_ret | intros _; exact IH].
  - apply propagates_raise.
Qed.

Lemma propagates_save_images (pages : IO (gen entry)) (base_url : string) :
  propagates pages -> propagates (save_images net fs sigint pages base_url).
Proof.
  intros H. apply propagates_bind; [exact H|].
  intros g. apply propagates_save_images_loop.
Qed.

End Propagation.

(** ** The outermost boundary *)

Section Boundary.

Variable net : trace -> string -> exn + gen (list byte).
Variable fs : trace -> string -> string -> option exn.
Variable sigint : trace -> bool.

Lemma propagates_main_body : propagates (main_body net fs sigint).
Proof. apply propagates_save_images, propagates_load_archive. Qed.

(** How [main] can end: the body returned; a [URLError] was raised and
    logged; it was raised and the operator interrupted the logging; or
    something else was raised, which [main] lets through. *)
Lemma main_outcomes (tr : trace) :
  exists evs, quiet evs /\
    (main net fs sigint tr = (inr tt, (tr ++ evs)%list)
     \/ (exists msg,
           main net fs sigint tr
           = (inr tt,
              (tr ++ evs ++ [EvRaise (URLError msg); EvLog ERROR msg])%list))
     \/ (exists msg,
           main net fs sigint tr
           = (inl KeyboardInterrupt,
              (tr ++ evs ++ [EvRaise (URLError msg);
                             EvRaise KeyboardInterrupt])%list))
     \/ (exists e,
           is_URLError e = false /\
           main net fs sigint tr = (inl e, (tr ++ evs ++ [EvRaise e])%list))).
Proof.
  destruct (propagates_main_body tr) as (evs & Q & E).
  exists evs. split; [exact Q|].
  unfold main, try_except.
  destruct (main_body net fs sigint tr) as [[e|[]] tr']; subst tr'.
  - destruct e as [msg| |msg| |]; cbn [is_URLError];
      try (right; right; right; eexists; split; [|reflexivity]; reflexivity).
    unfold logging_error, bind, checkpoint, str_of_exn.
    destruct (sigint _).
    + right; right; left. exists msg. unfold raise.
      rewrite <- !app_assoc. reflexivity.
    + right; left. exists msg. unfold ret, emit.
      rewrite <- !app_assoc. reflexivity.
  - left. reflexivity.
Qed.

(** How the process can end. *)
Lemma script_outcomes (tr : trace) :
  exists evs, quiet evs /\
    (script net fs sigint tr = (inr tt, (tr ++ evs)%list)
     \/ (exists msg,
           script net fs sigint tr
           = (inr tt,
              (tr ++ evs ++ [EvRaise (URLError msg); EvLog ERROR msg])%list))
     \/ (exists msg,
           script net fs sigint tr
           = (inr tt,
              (tr ++ (evs ++ [EvRaise (URLError msg)])
                  ++ [EvRaise KeyboardInterrupt; EvPrint INTERRUPTED])%list))
     \/ script net fs sigint tr
        = (inr tt,
           (tr ++ evs ++ [EvRaise KeyboardInterrupt; EvPrint INTERRUPTED])%list)
     \/ (exists e,
           is_URLError e = false /\ is_KeyboardInterrupt e = false /\
           script net fs sigint tr = (inl e, (tr ++ evs ++ [EvRaise e])%list))).
Proof.
  destruct (main_outcomes tr)
    as (evs & Q & [E|[(msg & E)|[(msg & E)|(e & U & E)]]]);
    exists evs; (split; [exact Q|]); unfold script, try_except; rewrite E.
  - left. reflexivity.
  - right; left. exists msg. reflexivity.
  - right; right; left. exists msg. cbn [is_KeyboardInterrupt].
    unfold print, emit. rewrite <- !app_assoc. reflexivity.
  - destruct e as [msg| |msg| |]; cbn [is_KeyboardInterrupt];
      try (right; right; right; right; eexists; repeat split; reflexivity).
    + discriminate U.
    + right; right; right; left. unfold print, emit.
      rewrite <- !app_assoc. reflexivity.
Qed.

End Boundary.

Lemma quiet_no_raise (evs : list event) (e : exn) :
  quiet evs -> ~ In (EvRaise e) evs.
Proof. intros Q H. apply (quiet_In _ _ Q) in H. discriminate. Qed.

Lemma quiet_no_print (evs : list event) (text : string) :
  quiet evs -> ~ In (EvPrint text) evs.
Proof. intros Q H. apply (quiet_In _ _ Q) in H. discriminate. Qed.

(** C7, as amended.  An error of the transport may be raised when the
    index, a page or an image is opened, or while its lines are read.  None
    of [load_archive], [find_image_on_page] and [save_image_from_url], nor
    the loop of [save_images], handles it ([propagates]: the raise is the
    last thing the operation does, and its outcome).  In a run that the
    operator does not interrupt, once it is raised the run is over: nothing
    was raised, logged as an error or printed before, and no further URL is
    opened after.  When it is the [urllib.error.URLError] that [main] names,
    the trace ends with the raise followed by the one ERROR record that
    [main] logs, and the process exits normally.  When it is anything else
    -- an [OSError] of a connection that breaks while a response is read --
    the raise is the last event: nothing is logged and the process ends with
    that exception unhandled. *)
Theorem transport_error_ends_run :
  forall (net : trace -> string -> exn + gen (list byte))
         (fs : trace -> string -> string -> option exn)
         (sigint : trace -> bool) (e : exn),
    is_KeyboardInterrupt e = false ->
    In (EvRaise e) (snd (script net fs sigint [])) ->
    ~ In (EvRaise KeyboardInterrupt) (snd (script net fs sigint [])) ->
    (forall url pattern date_start,
        propagates (load_archive net url pattern date_start)) /\
    (forall pages base_url,
        propagates (save_images_loop net fs sigint pages base_url)) /\
    (forall page_url, propagates (find_image_on_page net page_url)) /\
    (forall url name folder,
        propagates (save_image_from_url net fs url name folder)) /\
    exists before,
      quiet before /\
      script net fs sigint []
      = match e with
        | URLError msg =>
            (inr tt, (before ++ [EvRaise e; EvLog ERROR msg])%list)
        | _ => (inl e, (before ++ [EvRaise e])%list)
        end.
Proof.
  intros net fs sigint e HN HE HK.
  split; [intros; apply propagates_load_archive|].
  split; [intros; apply propagates_save_images_loop|].
  split; [intros; apply propagates_find_image_on_page|].
  split; [intros; apply propagates_save_image_from_url|].
  destruct (script_outcomes net fs sigint [])
    as (evs & Q & [E|[(m & E)|[(m & E)|[E|(e' & U & K & E)]]]]);
    rewrite E in *; cbn [fst snd app] in *.
  - exfalso. exact (quiet_no_raise _ _ Q HE).
  - exists evs. split; [exact Q|].
    apply in_app_or in HE. destruct HE as [HE|[HE|[HE|[]]]].
    + exfalso. exact (quiet_no_raise _ _ Q HE).
    + inversion HE; subst e. reflexivity.
    + discriminate HE.
  - exfalso. apply HK. apply in_or_app. right. left. reflexivity.
  - exfalso. apply HK. apply in_or_app. right. left. reflexivity.
  - exists evs. split; [exact Q|].
    apply in_app_or in HE. destruct HE as [HE|[HE|[]]].
    + exfalso. exact (quiet_no_raise _ _ Q HE).
    + inversion HE; subst e'.
      destruct e; try reflexivity; discriminate U.
Qed.

(** C8.  The operator's interrupt surfaces as [KeyboardInterrupt] in some
    call made while [main] runs.  [main] does not handle it; the process
    boundary does, once: the trace ends with that raise followed by the
    printed notice, no interrupt was raised and nothing was printed before,
    and the process exits normally, so that no exception is left to be
    reported. *)
Theorem interrupt_ends_run_cleanly :
  forall (net : trace -> string -> exn + gen (list byte))
         (fs : trace -> string -> string -> option exn)
         (sigint : trace -> bool),
    In (EvRaise KeyboardInterrupt) (snd (script net fs sigint [])) ->
    fst (main net fs sigint []) = inl KeyboardInterrupt /\
    fst (script net fs sigint []) = inr tt /\
    (exists before,
        snd (script net fs sigint [])
        = (before ++ [EvRaise KeyboardInterrupt; EvPrint INTERRUPTED])%list /\
        ~ In (EvRaise KeyboardInterrupt) before /\
        forall text, ~ In (EvPrint text) before) /\
    INTERRUPTED = "Interrupted by user.".
Proof.
  intros net fs sigint HK.
  assert (S : script net fs sigint []
              = try_except (main net fs sigint) is_KeyboardInterrupt
                  (fun _ => print INTERRUPTED) []) by reflexivity.
  destruct (main_outcomes net fs sigint [])
    as (evs & Q & [E|[(m & E)|[(m & E)|(e & U & E)]]]);
    unfold try_except in S; rewrite E in S; rewrite S in *; rewrite ?E;
    cbn [fst snd app is_KeyboardInterrupt] in *.
  - exfalso. exact (quiet_no_raise _ _ Q HK).
  - exfalso. apply in_app_or in HK. destruct HK as [HK|[HK|[HK|[]]]].
    + exact (quiet_no_raise _ _ Q HK).
    + discriminate HK.
    + discriminate HK.
  - split; [reflexivity|]. split; [reflexivity|]. split; [|reflexivity].
    exists (evs ++ [EvRaise (URLError m)])%list.
    split; [unfold print, emit; rewrite <- !app_assoc; reflexivity|].
    split.
    + intros H. apply in_app_or in H. destruct H as [H|[H|[]]].
      * exact (quiet_no_raise _ _ Q H).
      * discriminate H.
    + intros text H. apply in_app_or in H. destruct H as [H|[H|[]]].
      * exact (quiet_no_print _ _ Q H).
      * discriminate H.
  - destruct e as [msg| |msg| |]; cbn [is_KeyboardInterrupt snd] in *;
      try (exfalso; apply in_app_or in HK; destruct HK as [HK|[HK|[]]];
           [exact (quiet_no_raise _ _ Q HK) | discriminate HK]).
    split; [reflexivity|]. split; [reflexivity|]. split; [|reflexivity].
    exists evs.
    split; [unfold print, emit; rewrite <- !app_assoc; reflexivity|].
    split; [apply quiet_no_raise; exact Q|].
    intros text. apply quiet_no_print. exact Q.
Qed.

Lemma transport_error_ends_run_witness :
  (exists before,
      quiet before /\
      script net_page_down fs_ok calm []
      = (inr tt,
         (before ++ [EvRaise (URLError REFUSED); EvLog ERROR REFUSED])%list)) /\
  (exists before,
      quiet before /\
      script net_index_reset fs_ok calm []
      = (inl (OSError RESET), (before ++ [EvRaise (OSError RESET)])%list)).
Proof.
  split.
  - apply (transport_error_ends_run net_page_down fs_ok calm
             (URLError REFUSED)).
    + reflexivity.
    + vm_compute. repeat (first [left; reflexivity | right]).
    + intros H. vm_compute in H.
      repeat (destruct H as [H|H]; [discriminate H|]). exact H.
  - apply (transport_error_ends_run net_index_reset fs_ok calm
             (OSError RESET)).
    + reflexivity.
    + vm_compute. repeat (first [left; reflexivity | right]).
    + intros H. vm_compute in H.
      repeat (destruct H as [H|H]; [discriminate H|]). exact H.
Defined.

(** C7, as the claim states it, fails: the index is opened, gives the row
    of 2020-01-15, whose page is served without an image, and then breaks
    off with the [OSError] of a connection reset.  The error goes through
    [load_archive] and [save_images] and ends the run, but [main] does not
    log it: no ERROR record is written and the process ends with the
    exception unhandled. *)
Lemma transport_error_unlogged_counterexample :
  script net_index_reset fs_ok calm []
  = (inl (OSError RESET),
     [EvUrlopen URL_BASE;
      EvLog INFO "Got link to page for 200115xx: Title C";
      EvUrlopen "https://apod.nasa.gov/apod/ap200115.html";
      EvRaise (OSError RESET)]) /\
  (forall msg,
      ~ In (EvLog ERROR msg) (snd (script net_index_reset fs_ok calm []))).
Proof.
  split; [vm_compute; reflexivity|].
  intros msg H. vm_compute in H.
  repeat (destruct H as [H|H]; [discriminate H|]). exact H.
Qed.

Lemma interrupt_ends_run_cleanly_witness :
  fst (script net_interrupted fs_ok calm []) = inr tt /\
  exists before,
    snd (script net_interrupted fs_ok calm [])
    = (before ++ [EvRaise KeyboardInterrupt; EvPrint INTERRUPTED])%list /\
    ~ In (EvRaise KeyboardInterrupt) before /\
    forall text, ~ In (EvPrint text) before.
Proof.
  destruct (interrupt_ends_run_cleanly net_interrupted fs_ok calm)
    as (_ & F & B & _).
  - vm_compute. repeat (first [left; reflexivity | right]).
  - split; [exact F | exact B].
Defined.

(** ** Letter case *)













Lemma append_assoc (a b c : string) : (a ++ b) ++ c = a ++ b ++ c.
Proof. induction a as [|x a IH]; simpl; [|rewrite IH]; reflexivity. Qed.


(** Without [re.IGNORECASE] a literal matches that very character only. *)
Lemma run_lit_inv (c : ascii) (k : list op) (pos : nat) (s : string)
    (ms : marks) (r : nat * marks) :
  run false (lit c :: k) pos s ms = Some r ->
  exists s', s = String c s' /\ run false k (S pos) s' ms = Some r.
Proof.
  cbn [run lit]. destruct s as [|x s]; [discriminate|].
  cbn [cs_mem same_char]. destruct (Ascii.eqb_spec x c) as [->|]; [|discriminate].
  intros H. exists s. auto.
Qed.

Lemma run_bol (ic : bool) (k : list op) (s : string) (ms : marks) :
  run ic (OBol :: k) 0 s ms = run ic k 0 s ms.
Proof. reflexivity. Qed.

Lemma run_mark (ic : bool) (k : list op) (pos : nat) (s : string)
    (ms : marks) :
  run ic (OMark :: k) pos s ms = run ic k pos s (ms ++ [pos])%list.
Proof. reflexivity. Qed.

Lemma run_rep (ic : bool) (cs : charset) (lo : nat) (hi : option nat)
    (k : list op) (pos : nat) (s : string) (ms : marks) :
  run ic (ORep cs lo hi :: k) pos s ms
  = greedy ic (run ic k) cs lo hi pos s ms.
Proof. reflexivity. Qed.





(** ** The parent URL *)

Lemma has_slash_app (a b : string) :
  has_slash (a ++ b) = has_slash a || has_slash b.
Proof.
  induction a as [|c a IH]; [reflexivity|].
  simpl. rewrite IH, orb_assoc. reflexivity.
Qed.

Lemma greedy_to_end :
  forall q lo pos ms,
    has_slash q = false -> lo <= String.length q ->
    greedy false (run false [OEol]) (CNot ["/"%char]) lo None pos q ms
    = Some (pos + String.length q, ms).
Proof.
  induction q as [|c q IH]; intros lo pos ms H L; simpl in L.
  - replace lo with 0 by lia. simpl. rewrite Nat.add_0_r. reflexivity.
  - simpl in H. apply orb_false_iff in H. destruct H as [Hc Hq].
    cbn [greedy cs_mem same_char existsb option_map]. rewrite Hc. cbn [orb negb andb].
    rewrite (IH (Nat.pred lo) (S pos) ms Hq) by lia.
    simpl. rewrite Nat.add_succ_r. reflexivity.
Qed.

Lemma greedy_blocked :
  forall q lo pos ms,
    has_slash q = true ->
    greedy false (run false [OEol]) (CNot ["/"%char]) lo None pos q ms = None.
Proof.
  induction q as [|c q IH]; intros lo pos ms H; [discriminate|].
  simpl in H. cbn [greedy cs_mem same_char existsb option_map].
  destruct (Ascii.eqb_spec c "/") as [->|Hc]; cbn [orb negb andb].
  - destruct lo; [|reflexivity]. cbn [run at_end].
    destruct q; reflexivity.
  - simpl in H. rewrite (IH (Nat.pred lo) (S pos) ms H).
    destruct lo; [|reflexivity]. cbn [run at_end].
    destruct q; [discriminate H | reflexivity].
Qed.

Lemma parent_run_other (c : ascii) (s : string) (pos : nat) :
  c <> "/"%char -> run false PARENT_OPS pos (String c s) [] = None.
Proof.
  intros H. unfold PARENT_OPS, lit. cbn [run cs_mem same_char].
  destruct (Ascii.eqb_spec c "/"); [contradiction | reflexivity].
Qed.

Lemma parent_run_blocked (q : string) (pos : nat) :
  has_slash q = true -> run false PARENT_OPS pos (String "/" q) [] = None.
Proof.
  intros H. unfold PARENT_OPS, lit. cbn [run cs_mem same_char Ascii.eqb].
  change (greedy false (run false [OEol]) (CNot ["/"%char]) 1 None
            (S pos) q [] = None).
  apply greedy_blocked. exact H.
Qed.

Lemma parent_run_segment (q : string) (pos : nat) :
  has_slash q = false -> q <> "" ->
  run false PARENT_OPS pos (String "/" q) []
  = Some (S pos + String.length q, []).
Proof.
  intros H N.
  change (greedy false (run false [OEol]) (CNot ["/"%char]) 1 None
            (S pos) q [] = Some (S pos + String.length q, [])).
  apply greedy_to_end; [exact H|].
  destruct q; [contradiction | simpl; lia].
Qed.

Lemma sub_drop_all :
  forall q pos, sub_from PARENT "" pos (String.length q) q = "".
Proof.
  induction q as [|c q IH]; intros pos; [reflexivity|].
  simpl String.length. cbn [sub_from]. apply IH.
Qed.

Lemma sub_no_slash :
  forall s pos, has_slash s = false -> sub_from PARENT "" pos 0 s = s.
Proof.
  induction s as [|c s IH]; intros pos H; [reflexivity|].
  simpl in H. apply orb_false_iff in H. destruct H as [Hc Hs].
  cbn [sub_from PARENT ops ignorecase].
  rewrite parent_run_other by (intros ->; discriminate Hc).
  rewrite (IH (S pos) Hs). reflexivity.
Qed.

Lemma sub_step_blocked (c : ascii) (s : string) (pos : nat) :
  has_slash s = true ->
  sub_from PARENT "" pos 0 (String c s)
  = String c (sub_from PARENT "" (S pos) 0 s).
Proof.
  intros H. cbn [sub_from PARENT ops ignorecase].
  destruct (Ascii.eqb_spec c "/") as [->|Hc].
  - rewrite (parent_run_blocked s pos H). reflexivity.
  - rewrite (parent_run_other c s pos Hc). reflexivity.
Qed.

Lemma sub_last_segment (q : string) :
  has_slash q = false -> q <> "" ->
  forall p pos, sub_from PARENT "" pos 0 (p ++ String "/" q) = p.
Proof.
  intros H N. induction p as [|c p IH]; intros pos.
  - cbn [append sub_from PARENT ops ignorecase].
    rewrite (parent_run_segment q pos H N).
    replace (S pos + String.length q =? pos) with false
      by (symmetry; apply Nat.eqb_neq; lia).
    replace (S pos + String.length q - pos - 1) with (String.length q) by lia.
    apply sub_drop_all.
  - cbn [append]. rewrite sub_step_blocked, IH; [reflexivity|].
    rewrite has_slash_app. simpl. apply orb_true_r.
Qed.

Lemma sub_trailing_slash :
  forall p pos, sub_from PARENT "" pos 0 (p ++ "/") = p ++ "/".
Proof.
  induction p as [|c p IH]; intros pos; [reflexivity|].
  cbn [append]. rewrite sub_step_blocked, IH; [reflexivity|].
  rewrite has_slash_app. simpl. apply orb_true_r.
Qed.

Lemma get_parent_url_sub (url : string) :
  get_parent_url url = sub_from PARENT "" 0 0 url.
Proof. unfold get_parent_url, re_sub. rewrite parent_ops. reflexivity. Qed.

(** What [get_parent_url] does, for every text: without a '/' it is left as
    it is; when something follows the last '/', that and the '/' are cut
    off; when nothing follows the last '/', it is left as it is. *)
Lemma get_parent_url_no_slash (url : string) :
  has_slash url = false -> get_parent_url url = url.
Proof. rewrite get_parent_url_sub. apply sub_no_slash. Qed.

Lemma get_parent_url_last_segment (p q : string) :
  has_slash q = false -> q <> "" -> get_parent_url (p ++ "/" ++ q) = p.
Proof.
  intros H N. rewrite get_parent_url_sub. apply sub_last_segment; assumption.
Qed.

Lemma get_parent_url_trailing_slash (p : string) :
  get_parent_url (p ++ "/") = p ++ "/".
Proof. rewrite get_parent_url_sub. apply sub_trailing_slash. Qed.

Lemma parent_by_the_words_last_slash (q : string) :
  has_slash q = false ->
  forall p, parent_by_the_words (p ++ "/" ++ q) = p.
Proof.
  intros H. induction p as [|c p IH].
  - simpl. rewrite H. reflexivity.
  - change (String c p ++ "/" ++ q) with (String c (p ++ "/" ++ q)).
    cbn [parent_by_the_words]. rewrite IH, has_slash_app. simpl.
    rewrite orb_true_r. reflexivity.
Qed.

(** The base [main] hands to the Director. *)
Lemma main_base_url : get_parent_url URL_BASE = "https://apod.nasa.gov/apod".
Proof. vm_compute. reflexivity. Qed.

(** C10.  On a URL that ends with '/', [get_parent_url] returns its
    argument unchanged, where its docstring (and the claim) remove the last
    '/': "https://apod.nasa.gov/apod/" stays as it is instead of becoming
    "https://apod.nasa.gov/apod". *)
Theorem get_parent_url_keeps_trailing_slash :
  get_parent_url "https://apod.nasa.gov/apod/" = "https://apod.nasa.gov/apod/" /\
  parent_by_the_words "https://apod.nasa.gov/apod/"
  = "https://apod.nasa.gov/apod" /\
  get_parent_url "https://apod.nasa.gov/apod/"
  <> parent_by_the_words "https://apod.nasa.gov/apod/".
Proof. repeat split. vm_compute. discriminate. Qed.

(** * Further properties of the code *)

(** ** [get_parent_url] on every text *)

Lemma length_append (a b : string) :
  String.length (a ++ b) = String.length a + String.length b.
Proof. induction a as [|x a IH]; simpl; [|rewrite IH]; reflexivity. Qed.

Lemma url_shape (url : string) :
  has_slash url = false \/
  exists p q, url = p ++ "/" ++ q /\ has_slash q = false.
Proof.
  induction url as [|c url IH]; [left; reflexivity|].
  destruct IH as [H|(p & q & -> & H)].
  - destruct (Ascii.eqb_spec c "/") as [->|Hc].
    + right. exists "", url. auto.
    + left. simpl. rewrite H. destruct (Ascii.eqb_spec c "/"); [contradiction|reflexivity].
  - right. exists (String c p), q. auto.
Qed.

(** X1.  What [get_parent_url] returns, for every text: a text without '/'
    comes back as it is; when the last '/' is followed by something, the
    result is what stands before that '/'; when the text ends with '/', it
    comes back as it is. *)
Theorem get_parent_url_cases :
  forall url : string,
    (has_slash url = false /\ get_parent_url url = url) \/
    (exists p q,
        url = p ++ "/" ++ q /\ has_slash q = false /\ q <> "" /\
        get_parent_url url = p) \/
    (exists p, url = p ++ "/" /\ get_parent_url url = url).
Proof.
  intros url. destruct (url_shape url) as [H|(p & q & -> & H)].
  - left. split; [exact H | apply get_parent_url_no_slash, H].
  - right. destruct q as [|c q].
    + right. exists p. split; [reflexivity | apply get_parent_url_trailing_slash].
    + left. exists p, (String c q). repeat split; try assumption.
      * discriminate.
      * apply get_parent_url_last_segment; [exact H | discriminate].
Qed.

Lemma prefix_app (a b : string) : prefix a (a ++ b) = true.
Proof.
  induction a as [|c a IH]; simpl; [destruct b; reflexivity|].
  destruct (ascii_dec c c); [exact IH | contradiction].
Qed.

Lemma prefix_refl (a : string) : prefix a a = true.
Proof.
  induction a as [|c a IH]; simpl; [reflexivity|].
  destruct (ascii_dec c c); [exact IH | contradiction].
Qed.

(** X2.  [get_parent_url] only ever cuts at the end: its result is a prefix
    of its argument, and never longer. *)
Theorem get_parent_url_is_prefix :
  forall url : string,
    prefix (get_parent_url url) url = true /\
    String.length (get_parent_url url) <= String.length url.
Proof.
  intros url. destruct (url_shape url) as [H|(p & [|c q] & -> & H)].
  - rewrite (get_parent_url_no_slash url H).
    split; [apply prefix_refl | lia].
  - change (p ++ "/" ++ "") with (p ++ "/").
    rewrite get_parent_url_trailing_slash.
    split; [apply prefix_refl | lia].
  - rewrite (get_parent_url_last_segment p (String c q) H) by discriminate.
    split; [apply prefix_app|].
    rewrite length_append. lia.
Qed.

(** X3.  Joining the parent of a URL with the segment that was cut off gives
    the URL back: for [p/q] with a non-empty [q] free of '/', the page URL
    the Director builds from [get_parent_url (p/q)] and [q] is [p/q]. *)
Theorem parent_then_join_round_trip :
  forall p q : string,
    has_slash q = false -> q <> "" ->
    url_page (get_parent_url (p ++ "/" ++ q)) q = p ++ "/" ++ q.
Proof.
  intros p q H N. rewrite (get_parent_url_last_segment p q H N). reflexivity.
Qed.

Lemma parent_then_join_round_trip_witness :
  url_page (get_parent_url URL_BASE) "archivepix.html" = URL_BASE.
Proof.
  apply (parent_then_join_round_trip "https://apod.nasa.gov/apod"
           "archivepix.html"); [reflexivity | discriminate].
Defined.

(** ** [load_archive] beyond the well-formed index *)

Lemma load_archive_lines_app (page_start : string) (g : gen (list byte)) :
  forall items,
    load_archive_lines (re_compile PATTERN_SUBPAGE false) page_start
      (gen_app items g)
    = gen_app (flat_map (yielded page_start) items)
        (load_archive_lines (re_compile PATTERN_SUBPAGE false) page_start g).
Proof.
  induction items as [|item items IH]; [reflexivity|].
  cbn [gen_app flat_map load_archive_lines]. unfold yielded at 1.
  destruct (re_match _ (strip (decode_latin1 item))) as [gs|] eqn:M.
  - destruct (subpage_three_groups _ _ M) as (w & l & t & ->).
    destruct (String.leb page_start l); simpl; rewrite IH; reflexivity.
  - exact IH.
Qed.

(** X4.  When the index breaks off with an exception after some lines,
    [load_archive] still returns its generator: it yields the entries of the
    lines that were read, in their order, and raises the exception only after
    them. *)
Theorem load_archive_broken_index :
  forall (net : trace -> string -> exn + gen (list byte)) (tr : trace)
         (url date_start : string) (items : list (list byte)) (e : exn),
    net tr url = inr (gen_app items (Raise e)) ->
    load_archive net url (re_compile PATTERN_SUBPAGE false) date_start tr
    = (inr (gen_app (flat_map (yielded (page_start_of date_start)) items)
              (Raise e)),
       (tr ++ [EvUrlopen url])%list).
Proof.
  intros net tr url date_start items e N.
  rewrite (load_archive_opened _ _ _ _ _ _ N), load_archive_lines_app.
  reflexivity.
Qed.

Lemma load_archive_broken_index_witness :
  load_archive net_broken_index URL_BASE (re_compile PATTERN_SUBPAGE false)
    "2020-01-02" []
  = (inr (Yield ("200115xx", "ap200115.html", "Title C")
            (Raise (OSError "Connection reset by peer"))),
     [EvUrlopen URL_BASE]).
Proof.
  etransitivity;
    [exact (load_archive_broken_index net_broken_index [] URL_BASE
              "2020-01-02" [ROW_BELOW; ROW_ABOVE]
              (OSError "Connection reset by peer") eq_refl)|].
  vm_compute. reflexivity.
Defined.

Lemma groups_of_length (s : string) :
  forall ms, length (groups_of ms s) = length ms / 2.
Proof.
  fix rec 1. intros [|a [|b ms]]; try reflexivity.
  cbn [groups_of length]. rewrite rec.
  change (S (S (length ms))) with (1 * 2 + length ms).
  rewrite Nat.add_comm, Nat.div_add by discriminate. lia.
Qed.

Lemma re_match_groups (p : Pattern) (line : string) (gs : list string) :
  re_match p line = Some gs -> length gs = count_marks (ops p) / 2.
Proof.
  unfold re_match.
  destruct (run (ignorecase p) (ops p) 0 line []) as [[e ms]|] eqn:E;
    [|discriminate].
  intros H. inversion H; subst. rewrite groups_of_length.
  apply run_marks in E. simpl in E. rewrite E. reflexivity.
Qed.

(** X5.  [load_archive] unpacks three groups from every match.  With a
    pattern that does not have three groups, the first line that matches
    makes the generator raise [ValueError]; nothing is yielded for that line
    or any later one, whatever their links. *)
Theorem load_archive_wrong_group_count :
  forall (pattern : Pattern) (page_start : string) (item : list byte)
         (rest : gen (list byte)),
    count_marks (ops pattern) / 2 <> 3 ->
    re_match pattern (strip (decode_latin1 item)) <> None ->
    load_archive_lines pattern page_start (Yield item rest) = Raise ValueError.
Proof.
  intros pattern page_start item rest C M. cbn [load_archive_lines].
  destruct (re_match pattern (strip (decode_latin1 item))) as [gs|] eqn:E;
    [|congruence].
  apply re_match_groups in E.
  destruct gs as [|a [|b [|c [|d gs]]]]; try reflexivity.
  exfalso. apply C. symmetry. exact E.
Qed.

Lemma load_archive_wrong_group_count_witness :
  load_archive_lines (re_compile PATTERN_IMAGE true) "ap200101"
    (Yield (bytes ("<IMG SRC=" ++ quoted "image/2001/full.jpg" ++ chr newline))
       (gen_of_list [ROW_ABOVE]))
  = Raise ValueError.
Proof.
  apply load_archive_wrong_group_count.
  - vm_compute. discriminate.
  - vm_compute. discriminate.
Defined.

Lemma replace_keeps (c : ascii) (s : string) :
  c <> "-"%char ->
  replace "-" "" (String c s) = String c (replace "-" "" s).
Proof.
  intros H. unfold replace. cbn [replace_from prefix].
  destruct (ascii_dec "-" c) as [E|_]; [symmetry in E; contradiction|].
  reflexivity.
Qed.

(** X6.  The threshold drops the century, so the comparison wraps around:
    whenever the start date begins with three characters other than '-' of
    which the third (the decade digit) is below '9', a row whose link begins
    with "ap9" -- a page of the 1990s -- is at or above the threshold and is
    yielded. *)
Theorem load_archive_yields_nineties :
  forall (c1 c2 c3 : ascii) (date_rest when link_rest title : string)
         (item : list byte) (rest : gen (list byte)),
    let date_start := String c1 (String c2 (String c3 date_rest)) in
    let pattern := re_compile PATTERN_SUBPAGE false in
    c1 <> "-"%char -> c2 <> "-"%char -> c3 <> "-"%char ->
    Ascii.ltb c3 "9" = true ->
    re_match pattern (strip (decode_latin1 item))
    = Some [when; "ap9" ++ link_rest; title] ->
    String.leb (page_start_of date_start) ("ap9" ++ link_rest) = true /\
    load_archive_lines pattern (page_start_of date_start) (Yield item rest)
    = Yield (when, "ap9" ++ link_rest, title)
        (load_archive_lines pattern (page_start_of date_start) rest).
Proof.
  intros c1 c2 c3 date_rest when link_rest title item rest date_start pattern
         H1 H2 H3 L M.
  assert (T : String.leb (page_start_of date_start) ("ap9" ++ link_rest) = true).
  { unfold page_start_of, date_start.
    rewrite !replace_keeps by assumption. cbn [slice_from append].
    unfold String.leb. cbn [String.compare].
    change (Ascii.compare "a" "a") with Eq.
    change (Ascii.compare "p" "p") with Eq. cbv iota.
    unfold Ascii.ltb in L.
    destruct (Ascii.compare c3 "9"); try discriminate L. reflexivity. }
  split; [exact T|].
  cbn [load_archive_lines]. fold pattern. rewrite M, T. reflexivity.
Qed.

Lemma load_archive_yields_nineties_witness :
  load_archive_lines (re_compile PATTERN_SUBPAGE false)
    (page_start_of "2020-01-01") (Yield ROW_1995 Stop)
  = Yield ("1995 June 16", "ap950616.html", "Neutron star Earth") Stop.
Proof.
  apply (load_archive_yields_nineties "2" "0" "2" "0-01-01" "1995 June 16"
           "50616.html" "Neutron star Earth" ROW_1995 Stop).
  - discriminate.
  - discriminate.
  - discriminate.
  - reflexivity.
  - vm_compute. reflexivity.
Defined.

(** ** White space around a line *)

Lemma lstrip_spaces (w s : string) :
  every is_space w = true -> lstrip (w ++ s) = lstrip s.
Proof.
  induction w as [|c w IH]; intros H; [reflexivity|].
  simpl in H. apply andb_true_iff in H. destruct H as [Hc Hw].
  simpl. rewrite Hc. apply IH, Hw.
Qed.

Lemma rstrip_all_space (w : string) :
  every is_space w = true -> rstrip w = "".
Proof.
  induction w as [|c w IH]; intros H; [reflexivity|].
  simpl in H. apply andb_true_iff in H. destruct H as [Hc Hw].
  simpl. rewrite (IH Hw), Hc. reflexivity.
Qed.

Lemma rstrip_spaces (w s : string) :
  every is_space w = true -> rstrip (s ++ w) = rstrip s.
Proof.
  intros H. induction s as [|c s IH].
  - simpl. apply rstrip_all_space, H.
  - simpl. rewrite IH. reflexivity.
Qed.

Lemma strip_leading_spaces (w s : string) :
  every is_space w = true -> lstrip (rstrip (w ++ s)) = lstrip (rstrip s).
Proof.
  induction w as [|c w IH]; intros H; [reflexivity|].
  simpl in H. apply andb_true_iff in H. destruct H as [Hc Hw].
  cbn [append rstrip]. specialize (IH Hw).
  destruct (rstrip (w ++ s)) as [|d r].
  - rewrite Hc. rewrite <- IH. reflexivity.
  - cbn [lstrip]. rewrite Hc. exact IH.
Qed.

Lemma strip_padded (w1 s w2 : string) :
  every is_space w1 = true -> every is_space w2 = true ->
  strip (w1 ++ s ++ w2) = strip s.
Proof.
  intros H1 H2. unfold strip.
  rewrite <- append_assoc, (rstrip_spaces _ _ H2).
  apply strip_leading_spaces, H1.
Qed.

Lemma decode_latin1_app (a b : list byte) :
  decode_latin1 (a ++ b)%list = decode_latin1 a ++ decode_latin1 b.
Proof.
  unfold decode_latin1, string_of_list_byte.
  induction a as [|x a IH]; [reflexivity|].
  simpl. rewrite IH. reflexivity.
Qed.

(** X7.  White space around a raw line changes nothing: with bytes that
    decode to white space (a carriage return and a newline, indentation) put
    before and after a line, [load_archive] yields and [find_image_on_page]
    finds exactly what they do for the line itself. *)
Theorem padding_is_ignored :
  forall (pattern : Pattern) (page_start : string) (result : option string)
         (pre item post : list byte) (rest : gen (list byte)),
    every is_space (decode_latin1 pre) = true ->
    every is_space (decode_latin1 post) = true ->
    load_archive_lines pattern page_start
      (Yield (pre ++ item ++ post)%list rest)
    = load_archive_lines pattern page_start (Yield item rest) /\
    find_image_lines result (Yield (pre ++ item ++ post)%list rest)
    = find_image_lines result (Yield item rest).
Proof.
  intros pattern page_start result pre item post rest H1 H2.
  assert (E : strip (decode_latin1 (pre ++ item ++ post)%list)
              = strip (decode_latin1 item)).
  { rewrite !decode_latin1_app. apply strip_padded; assumption. }
  cbn [load_archive_lines find_image_lines]. rewrite E. split; reflexivity.
Qed.

Lemma padding_is_ignored_witness :
  find_image_lines None
    (Yield (bytes "    " ++ bytes ("<IMG SRC=" ++ quoted "image/full.jpg")
            ++ bytes (String "013" (String "010" "")))%list Stop)
  = inr (Some "image/full.jpg").
Proof.
  etransitivity;
    [exact (proj2 (padding_is_ignored (re_compile PATTERN_SUBPAGE false) ""
                     None (bytes "    ")
                     (bytes ("<IMG SRC=" ++ quoted "image/full.jpg"))
                     (bytes (String "013" (String "010" ""))) Stop
                     eq_refl eq_refl))|].
  vm_compute. reflexivity.
Defined.

(** ** What the patterns accept *)

Lemma substring_0_app (b c : string) :
  substring 0 (String.length b) (b ++ c) = b.
Proof.
  induction b as [|x b IH]; simpl; [destruct c; reflexivity|].
  rewrite IH. reflexivity.
Qed.


Lemma substring_of (line a b c : string) (n len : nat) :
  line = a ++ b ++ c -> n = String.length a -> len = String.length b ->
  substring n len line = b.
Proof.
  intros -> -> ->.
  induction a as [|x a IH]; simpl; [apply substring_0_app | exact IH].
Qed.

(** A successful repetition consumed a prefix made of characters of the
    class, within its bounds, and handed the rest to what follows. *)
Lemma greedy_inv_class (ic : bool) (k : cont) :
  forall s cs lo hi pos ms r,
    greedy ic k cs lo hi pos s ms = Some r ->
    exists pre post,
      s = pre ++ post /\ every (cs_mem ic cs) pre = true /\
      lo <= String.length pre /\
      match hi with Some h => String.length pre <= h | None => True end /\
      k (pos + String.length pre) post ms = Some r.
Proof.
  assert (Halt : forall cs lo hi pos s ms r,
             match lo with 0 => k pos s ms | S _ => None end = Some r ->
             exists pre post,
               s = pre ++ post /\ every (cs_mem ic cs) pre = true /\
               lo <= String.length pre /\
               match hi with Some h => String.length pre <= h | None => True end /\
               k (pos + String.length pre) post ms = Some r).
  { intros cs lo hi pos s ms r H. destruct lo; [|discriminate].
    exists "", s. simpl. rewrite Nat.add_0_r.
    repeat split; auto. destruct hi; [lia | exact I]. }
  induction s as [|c s IH]; intros cs lo hi pos ms r H; cbn [greedy] in H.
  - eapply Halt; exact H.
  - destruct (cs_mem ic cs c) eqn:Hc; cbn [andb] in H; [|eapply Halt; exact H].
    destruct (negb match hi with Some 0 => true | _ => false end) eqn:Hh;
      [|eapply Halt; exact H].
    destruct (greedy ic k cs (Nat.pred lo) (option_map Nat.pred hi)
                (S pos) s ms) as [r'|] eqn:E; [|eapply Halt; exact H].
    inversion H; subst r'. apply IH in E.
    destruct E as (pre & post & -> & Hp & Hlo & Hhi & E).
    exists (String c pre), post. simpl. rewrite Hc, Hp, Nat.add_succ_r.
    repeat split; auto; [lia|].
    destruct hi as [[|h]|]; simpl in *; [discriminate Hh | lia | exact I].
Qed.




Lemma run_eol_inv (ic : bool) (pos : nat) (s : string) (ms : marks)
    (r : nat * marks) :
  run ic [OEol] pos s ms = Some r ->
  (s = "" \/ s = chr newline) /\ r = (pos, ms).
Proof.
  cbn [run]. destruct s as [|c [|d s]]; cbn [at_end].
  - intros H. inversion H. auto.
  - destruct (Ascii.eqb_spec c newline) as [->|]; [|discriminate].
    intros H. inversion H. auto.
  - discriminate.
Qed.



Lemma cs_mem_not (ic : bool) (x c : ascii) :
  same_char ic c x = Ascii.eqb c x ->
  cs_mem ic (CNot [x]) c = not_char x c.
Proof.
  intros H. unfold not_char. cbn [cs_mem existsb].
  rewrite H, orb_false_r. reflexivity.
Qed.

Lemma every_ext (p q : ascii -> bool) (s : string) :
  (forall c, p c = q c) -> every p s = every q s.
Proof.
  intros H. induction s as [|c s IH]; [reflexivity|].
  simpl. rewrite H, IH. reflexivity.
Qed.

Lemma nonempty_length (s : string) : 1 <= String.length s -> s <> "".
Proof. destruct s; simpl; [lia | discriminate]. Qed.




Lemma every_not (x : ascii) (s : string) :
  every (cs_mem false (CNot [x])) s = every (not_char x) s.
Proof. apply every_ext. intros c. apply cs_mem_not. reflexivity. Qed.

(** X9.  What an index row that matches looks like, and what is captured
    from it: four digits and a non-empty label free of ':' (together the
    date), a ':', white space, the tag opening [A_TAG] in lower case, a
    non-empty link free of double quotes, non-empty further attributes free
    of '>', a '>', a non-empty title free of '<', the closing tag in lower
    case, and the rest of the line. *)
Theorem index_row_shape :
  forall (line when link title : string),
    re_match (re_compile PATTERN_SUBPAGE false) line
    = Some [when; link; title] ->
    exists digits label ws attrs body fin,
      line = digits ++ label ++ ":" ++ ws ++ A_TAG ++ link ++ attrs ++ ">"
             ++ title ++ "</a>" ++ body ++ fin /\
      when = digits ++ label /\
      String.length digits = 4 /\ every is_digit digits = true /\
      label <> "" /\ every (not_char ":") label = true /\
      ws <> "" /\ every is_space ws = true /\
      link <> "" /\ every (not_char dquote) link = true /\
      attrs <> "" /\ every (not_char ">") attrs = true /\
      title <> "" /\ every (not_char "<") title = true /\
      every (not_char newline) body = true /\
      (fin = "" \/ fin = chr newline).
Proof.
  intros line when link title.
  rewrite PATTERN_SUBPAGE_ops. unfold re_match. cbn [ignorecase ops].
  destruct (run false SUBPAGE_OPS 0 line []) as [[e ms]|] eqn:E; [|discriminate].
  intros G. unfold SUBPAGE_OPS in E.
  rewrite run_bol, run_mark, run_rep in E. cbn [app] in E.
  apply greedy_inv_class in E.
  destruct E as (digits & ? & -> & Hd & Hd4 & Hd4' & E).
  rewrite run_rep in E. apply greedy_inv_class in E.
  destruct E as (label & ? & -> & Hl & Hl1 & _ & E).
  rewrite run_mark in E. cbn [app] in E.
  apply run_lit_inv in E. destruct E as (? & -> & E).
  rewrite run_rep in E. apply greedy_inv_class in E.
  destruct E as (ws & ? & -> & Hw & Hw1 & _ & E).
  do 9 (apply run_lit_inv in E; destruct E as (? & -> & E)).
  rewrite run_mark, run_rep in E. cbn [app] in E.
  apply greedy_inv_class in E.
  destruct E as (lnk & ? & -> & Hk & Hk1 & _ & E).
  rewrite run_mark, run_rep in E. cbn [app] in E.
  apply greedy_inv_class in E.
  destruct E as (attrs & ? & -> & Ha & Ha1 & _ & E).
  apply run_lit_inv in E. destruct E as (? & -> & E).
  rewrite run_mark, run_rep in E. cbn [app] in E.
  apply greedy_inv_class in E.
  destruct E as (ttl & ? & -> & Ht & Ht1 & _ & E).
  rewrite run_mark in E. cbn [app] in E.
  do 4 (apply run_lit_inv in E; destruct E as (? & -> & E)).
  rewrite run_rep in E. apply greedy_inv_class in E.
  destruct E as (body & fin & -> & Hb & _ & _ & E).
  apply run_eol_inv in E. destruct E as (Hf & E). inversion E; subst e ms.
  clear E. cbn [groups_of] in G. injection G as G1 G2 G3.
  assert (W : when = digits ++ label).
  { rewrite <- G1.
    apply (substring_of _ "" (digits ++ label)
             (":" ++ ws ++ A_TAG ++ lnk ++ attrs ++ ">" ++ ttl ++ "</a>"
              ++ body ++ fin)).
    - cbn [append]. rewrite !append_assoc. reflexivity.
    - reflexivity.
    - rewrite length_append. lia. }
  assert (K : link = lnk).
  { rewrite <- G2.
    apply (substring_of _ (digits ++ label ++ ":" ++ ws ++ A_TAG) lnk
             (attrs ++ ">" ++ ttl ++ "</a>" ++ body ++ fin)).
    - rewrite !append_assoc. reflexivity.
    - rewrite !length_append. simpl. lia.
    - lia. }
  assert (T : title = ttl).
  { rewrite <- G3.
    apply (substring_of _
             (digits ++ label ++ ":" ++ ws ++ A_TAG ++ lnk ++ attrs ++ ">")
             ttl ("</a>" ++ body ++ fin)).
    - rewrite !append_assoc. reflexivity.
    - rewrite !length_append. simpl. rewrite ?length_append. simpl. lia.
    - lia. }
  clear G1 G2 G3. subst when link title.
  exists digits, label, ws, attrs, body, fin.
  split; [reflexivity|]. split; [reflexivity|].
  split; [lia|]. split; [exact Hd|].
  split; [apply nonempty_length, Hl1|].
  split; [rewrite <- every_not; exact Hl|].
  split; [apply nonempty_length, Hw1|]. split; [exact Hw|].
  split; [apply nonempty_length, Hk1|].
  split; [rewrite <- every_not; exact Hk|].
  split; [apply nonempty_length, Ha1|].
  split; [rewrite <- every_not; exact Ha|].
  split; [apply nonempty_length, Ht1|].
  split; [rewrite <- every_not; exact Ht|].
  split; [exact Hb | exact Hf].
Qed.

Lemma index_row_shape_witness :
  exists digits label,
    "2019 December 31" = digits ++ label /\ String.length digits = 4.
Proof.
  destruct (index_row_shape
              ("2019 December 31:  <a href=" ++ quoted "ap191231.html"
               ++ ">Old light</a><br>")
              "2019 December 31" "ap191231.html" "Old light" eq_refl)
    as (digits & label & ws & attrs & body & fin & _ & W & D & _).
  exists digits, label. split; assumption.
Defined.

(** ** Failures while a page or an image is read *)

Lemma find_image_lines_broken (e : exn) :
  forall items result,
    find_image_lines result (gen_app items (Raise e)) = inl e.
Proof.
  induction items as [|item items IH]; intros result; [reflexivity|].
  cbn [gen_app find_image_lines]. fold (image_match item).
  destruct (image_match item) as [gs|] eqn:M.
  - destruct (image_one_group _ _ M) as (ref & ->). apply IH.
  - apply IH.
Qed.

(** X10.  When a page breaks off with an exception while it is read,
    [find_image_on_page] raises that exception, also when a line read before
    had matched: the reference found so far is not returned. *)
Theorem find_image_on_page_broken_page :
  forall (net : trace -> string -> exn + gen (list byte)) (tr : trace)
         (page_url : string) (items : list (list byte)) (e : exn),
    net tr page_url = inr (gen_app items (Raise e)) ->
    find_image_on_page net page_url tr
    = (inl e, (tr ++ [EvUrlopen page_url; EvRaise e])%list).
Proof.
  intros net tr page_url items e N.
  unfold find_image_on_page, bind, urlopen.
  rewrite N, find_image_lines_broken. cbn [lift]. unfold raise.
  rewrite <- app_assoc. reflexivity.
Qed.

Lemma find_image_on_page_broken_page_witness :
  find_image_on_page net_broken_page "https://apod.nasa.gov/apod/ap200115.html" []
  = (inl (OSError "Connection reset by peer"),
     [EvUrlopen "https://apod.nasa.gov/apod/ap200115.html";
      EvRaise (OSError "Connection reset by peer")]).
Proof.
  exact (find_image_on_page_broken_page net_broken_page []
           "https://apod.nasa.gov/apod/ap200115.html"
           [bytes ("<IMG SRC=" ++ quoted "image/2001/full.jpg" ++ chr newline)]
           (OSError "Connection reset by peer") eq_refl).
Defined.

Lemma read_broken (e : exn) :
  forall chunks, read (gen_app chunks (Raise e)) = inl e.
Proof.
  induction chunks as [|c chunks IH]; [reflexivity|].
  cbn [gen_app read]. rewrite IH. reflexivity.
Qed.

(** X11.  [save_image_from_url] opens the file before it reads the image.
    When the download breaks off while it is read, the file has been opened
    for writing -- created or emptied -- and nothing is written to it; the
    exception goes on to the caller. *)
Theorem save_image_broken_download :
  forall (net : trace -> string -> exn + gen (list byte))
         (fs : trace -> string -> string -> option exn)
         (url name folder : string) (tr : trace)
         (chunks : list (list byte)) (e : exn),
    net tr url = inr (gen_app chunks (Raise e)) ->
    fs (tr ++ [EvUrlopen url])%list folder name = None ->
    save_image_from_url net fs url name folder tr
    = (inl e, (tr ++ [EvUrlopen url; EvOpen folder name; EvRaise e])%list).
Proof.
  intros net fs url name folder tr chunks e N F.
  unfold save_image_from_url, bind, urlopen, open_wb.
  rewrite N, F, read_broken. cbn [lift]. unfold raise.
  rewrite <- !app_assoc. reflexivity.
Qed.

Lemma save_image_broken_download_witness :
  save_image_from_url net_broken_page fs_ok
    "https://apod.nasa.gov/apod/image/2001/full.jpg" "image_200115.jpg" "./" []
  = (inl (OSError "Connection reset by peer"),
     [EvUrlopen "https://apod.nasa.gov/apod/image/2001/full.jpg";
      EvOpen "./" "image_200115.jpg";
      EvRaise (OSError "Connection reset by peer")]).
Proof.
  exact (save_image_broken_download net_broken_page fs_ok
           "https://apod.nasa.gov/apod/image/2001/full.jpg" "image_200115.jpg"
           "./" []
           [bytes ("<IMG SRC=" ++ quoted "image/2001/full.jpg" ++ chr newline)]
           (OSError "Connection reset by peer") eq_refl eq_refl).
Defined.

(** ** The Director, entry after entry *)

Section Director.

Variable net : trace -> string -> exn + gen (list byte).
Variable fs : trace -> string -> string -> option exn.
Variable sigint : trace -> bool.

Lemma save_images_loop_step (en : entry) (rest : gen entry)
    (base_url : string) (tr : trace) :
  save_images_loop net fs sigint (Yield en rest) base_url tr
  = and_then (entry_step net fs sigint en base_url)
      (save_images_loop net fs sigint rest base_url) tr.
Proof.
  destruct en as [[when link] title].
  cbn [save_images_loop]. unfold and_then, entry_step, bind.
  destruct (logging_info sigint _ tr) as [[e1|[]] t1]; [reflexivity|].
  destruct (find_image_on_page net _ t1) as [[e2|[img|]] t2];
    [reflexivity| |reflexivity].
  destruct (logging_info sigint _ t2) as [[e3|[]] t3]; [reflexivity|].
  destruct (save_image_from_url net fs _ _ _ t3) as [[e4|[]] t4]; reflexivity.
Qed.

Lemma save_images_loop_app (base_url : string) (g : gen entry) :
  forall (entries : list entry) (tr : trace),
    save_images_loop net fs sigint (gen_app entries g) base_url tr
    = and_then (save_images_loop net fs sigint (gen_of_list entries) base_url)
        (save_images_loop net fs sigint g base_url) tr.
Proof.
  induction entries as [|en entries IH]; intros tr; [reflexivity|].
  cbn [gen_app gen_of_list]. unfold and_then, bind.
  rewrite !save_images_loop_step. unfold and_then, bind.
  destruct (entry_step net fs sigint en base_url tr) as [[e|[]] t];
    [reflexivity|].
  rewrite IH. reflexivity.
Qed.

End Director.

(** X12.  The Director takes the entries one after the other: running the
    loop over some entries followed by more of the sequence is running it
    over those entries and, if that went well, over the rest from where the
    run then stands.  When an entry fails, the run stops there, in the same
    state whatever would have followed: no later entry is touched. *)
Theorem save_images_in_sequence :
  forall (net : trace -> string -> exn + gen (list byte))
         (fs : trace -> string -> string -> option exn)
         (sigint : trace -> bool) (base_url : string)
         (entries : list entry) (g : gen entry) (tr : trace),
    save_images_loop net fs sigint (gen_app entries g) base_url tr
    = match save_images_loop net fs sigint (gen_of_list entries) base_url tr with
      | (inr _, tr') => save_images_loop net fs sigint g base_url tr'
      | (inl e, tr') => (inl e, tr')
      end.
Proof.
  intros net fs sigint base_url entries g tr.
  rewrite save_images_loop_app. unfold and_then, bind.
  destruct (save_images_loop net fs sigint (gen_of_list entries) base_url tr)
    as [[e|[]] t]; reflexivity.
Qed.

(** X13.  [main] handles [URLError] and the [__main__] block handles
    [KeyboardInterrupt]; any other exception raised during the run -- the
    disk refusing a file, a pattern with the wrong number of groups -- is
    not logged and not reported by the program: the raise is the last event
    of the run and the process ends with that exception unhandled. *)
Theorem other_exceptions_escape :
  forall (net : trace -> string -> exn + gen (list byte))
         (fs : trace -> string -> string -> option exn)
         (sigint : trace -> bool) (e : exn),
    is_URLError e = false -> is_KeyboardInterrupt e = false ->
    In (EvRaise e) (snd (script net fs sigint [])) ->
    fst (script net fs sigint []) = inl e /\
    exists before,
      snd (script net fs sigint []) = (before ++ [EvRaise e])%list /\
      quiet before.
Proof.
  intros net fs sigint e U K H.
  destruct (script_outcomes net fs sigint [])
    as (evs & Q & [E|[(m & E)|[(m & E)|[E|(e' & U' & K' & E)]]]]);
    rewrite E in *; cbn [fst snd app] in *.
  - exfalso. exact (quiet_no_raise _ _ Q H).
  - exfalso. apply in_app_or in H. destruct H as [H|[H|[H|[]]]].
    + exact (quiet_no_raise _ _ Q H).
    + inversion H; subst. discriminate U.
    + discriminate H.
  - exfalso. apply in_app_or in H. destruct H as [H|[H|[H|[]]]].
    + apply in_app_or in H. destruct H as [H|[H|[]]].
      * exact (quiet_no_raise _ _ Q H).
      * inversion H; subst. discriminate U.
    + inversion H; subst. discriminate K.
    + discriminate H.
  - exfalso. apply in_app_or in H. destruct H as [H|[H|[H|[]]]].
    + exact (quiet_no_raise _ _ Q H).
    + inversion H; subst. discriminate K.
    + discriminate H.
  - apply in_app_or in H. destruct H as [H|[H|[]]].
    + exfalso. exact (quiet_no_raise _ _ Q H).
    + inversion H; subst e'. split; [reflexivity|].
      exists evs. split; [reflexivity | exact Q].
Qed.

Lemma other_exceptions_escape_witness :
  fst (script net_one_row fs_full calm [])
  = inl (OSError "No space left on device") /\
  exists before,
    snd (script net_one_row fs_full calm [])
    = (before ++ [EvRaise (OSError "No space left on device")])%list /\
    quiet before.
Proof.
  apply (other_exceptions_escape net_one_row fs_full calm
           (OSError "No space left on device")).
  - reflexivity.
  - reflexivity.
  - vm_compute. repeat (first [left; reflexivity | right]).
Defined.

(** ** File names *)

Lemma append_cancel_r (c : string) :
  forall a b, a ++ c = b ++ c -> a = b.
Proof.
  induction a as [|x a IH]; intros [|y b] H.
  - reflexivity.
  - exfalso. apply (f_equal String.length) in H.
    simpl in H. rewrite length_append in H. lia.
  - exfalso. apply (f_equal String.length) in H.
    simpl in H. rewrite length_append in H. lia.
  - simpl in H. injection H as -> H. f_equal. apply IH, H.
Qed.

(** X14.  Two links get the same file name exactly when they agree on their
    characters at positions 2 to 7: the images of such entries are written
    to the same file, and no others are. *)
Theorem filename_collision :
  forall link1 link2 : string,
    filename link1 = filename link2 <-> slice 2 8 link1 = slice 2 8 link2.
Proof.
  intros link1 link2. split.
  - intros H.
    change ("image_" ++ slice 2 8 link1 ++ ".jpg"
            = "image_" ++ slice 2 8 link2 ++ ".jpg") in H.
    cbn [append] in H. injection H as H.
    apply (append_cancel_r ".jpg"), H.
  - intros H.
    change ("image_" ++ slice 2 8 link1 ++ ".jpg"
            = "image_" ++ slice 2 8 link2 ++ ".jpg").
    rewrite H. reflexivity.
Qed.

Lemma substring_length :
  forall s n m,
    String.length (substring n m s) = Nat.min m (String.length s - n).
Proof.
  induction s as [|c s IH]; intros [|n] [|m]; simpl; try reflexivity.
  - rewrite IH, Nat.sub_0_r. reflexivity.
  - apply IH.
  - apply IH.
Qed.

Lemma length_0 (s : string) : String.length s = 0 -> s = "".
Proof. destruct s; [reflexivity | discriminate]. Qed.

(** X15.  A file name has the ten characters of the template and as many
    characters of the link as there are at positions 2 to 7; a link shorter
    than that is no error: a link of at most two characters gives
    "image_.jpg". *)
Theorem filename_of_short_link :
  forall link : string,
    String.length (filename link)
    = 10 + Nat.min 6 (String.length link - 2) /\
    (String.length link <= 2 -> filename link = "image_.jpg").
Proof.
  intros link.
  change (filename link) with ("image_" ++ substring 2 6 link ++ ".jpg").
  split.
  - rewrite !length_append, substring_length. simpl. lia.
  - intros H.
    assert (E : substring 2 6 link = "").
    { apply length_0. rewrite substring_length. lia. }
    rewrite E. reflexivity.
Qed.

Lemma filename_of_short_link_witness : filename "ap" = "image_.jpg".
Proof.
  apply (filename_of_short_link "ap"). simpl. lia.
Defined.

(** ** Whole runs *)

Lemma flat_map_nil {A B : Type} (f : A -> list B) (l : list A) :
  (forall x, In x l -> f x = []) -> flat_map f l = [].
Proof.
  induction l as [|a l IH]; intros H; [reflexivity|].
  simpl. rewrite (H a (or_introl eq_refl)), IH; [reflexivity|].
  intros x Hx. apply H. right. exact Hx.
Qed.

(** X16.  When the index is served and none of its lines gives an entry of
    the range, the run opens the index and ends: no page is opened, nothing
    is logged, and the process exits normally. *)
Theorem run_without_entries :
  forall (net : trace -> string -> exn + gen (list byte))
         (fs : trace -> string -> string -> option exn)
         (sigint : trace -> bool) (items : list (list byte)),
    net [] URL_BASE = inr (gen_of_list items) ->
    (forall item, In item items ->
       yielded (page_start_of DATE_START) item = []) ->
    script net fs sigint [] = (inr tt, [EvUrlopen URL_BASE]).
Proof.
  intros net fs sigint items N H.
  unfold script, main, main_body, save_images, try_except, bind.
  rewrite (load_archive_opened _ _ _ _ _ _ N), load_archive_lines_of_list.
  rewrite (flat_map_nil _ _ H). reflexivity.
Qed.

Lemma run_without_entries_witness :
  script net_old_index fs_ok calm [] = (inr tt, [EvUrlopen URL_BASE]).
Proof.
  apply (run_without_entries net_old_index fs_ok calm
           [bytes ("<b>Index</b>" ++ chr newline); ROW_2019]).
  - reflexivity.
  - intros item Hi. simpl in Hi.
    repeat (destruct Hi as [<-|Hi]; [vm_compute; reflexivity|]).
    destruct Hi.
Defined.

Lemma save_images_loop_served
    (net : trace -> string -> exn + gen (list byte))
    (fs : trace -> string -> string -> option exn) (sigint : trace -> bool)
    (served : string -> list (list byte)) (base_url : string) :
  (forall t url, net t url = inr (gen_of_list (served url))) ->
  (forall t, sigint t = false) ->
  (forall t folder name, fs t folder name = None) ->
  forall (entries : list entry) (tr : trace),
    save_images_loop net fs sigint (gen_of_list entries) base_url tr
    = (inr tt, (tr ++ flat_map (entry_events served base_url) entries)%list).
Proof.
  intros N S F.
  induction entries as [|[[when link] title] entries IH]; intros tr.
  - simpl. rewrite app_nil_r. reflexivity.
  - cbn [gen_of_list save_images_loop flat_map entry_events].
    unfold bind at 1. rewrite (logging_info_calm _ _ _ (S _)).
    unfold bind at 1. rewrite (find_image_on_page_served _ _ _ _ (N _ _)).
    destruct (last (map Some (captures (served (url_page base_url link)))) None)
      as [img|].
    + unfold bind at 1. unfold bind at 1.
      rewrite (logging_info_calm _ _ _ (S _)).
      rewrite (save_image_from_url_served _ _ _ _ _ _ _ (N _ _) (F _ _ _)
                 (F _ _ _)).
      rewrite IH. rewrite <- !app_assoc. reflexivity.
    + unfold bind at 1. cbn [ret]. rewrite IH.
      rewrite <- !app_assoc. reflexivity.
Qed.

(** X17.  A whole run, when every document is served, nobody interrupts and
    the disk accepts everything: the index is opened first; then the entries
    of the range are handled in the order of their lines in the index, each
    one completely before the next -- its page opened once, and its image,
    if the page has a reference, opened once and written once under the name
    made from the link; nothing else happens and the process exits
    normally. *)
Theorem run_in_index_order :
  forall (net : trace -> string -> exn + gen (list byte))
         (fs : trace -> string -> string -> option exn)
         (sigint : trace -> bool) (served : string -> list (list byte)),
    (forall t url, net t url = inr (gen_of_list (served url))) ->
    (forall t, sigint t = false) ->
    (forall t folder name, fs t folder name = None) ->
    script net fs sigint []
    = (inr tt,
       EvUrlopen URL_BASE
       :: flat_map (entry_events served (get_parent_url URL_BASE))
            (flat_map (yielded (page_start_of DATE_START)) (served URL_BASE))).
Proof.
  intros net fs sigint served N S F.
  unfold script, main, main_body, save_images, try_except, bind.
  rewrite (load_archive_opened _ _ _ _ _ _ (N _ _)), load_archive_lines_of_list.
  rewrite (save_images_loop_served net fs sigint served _ N S F).
  reflexivity.
Qed.

Lemma run_in_index_order_witness :
  script net_small_archive fs_ok calm []
  = (inr tt,
     [EvUrlopen URL_BASE;
      EvLog INFO "Got link to page for 2020 January 16: A video";
      EvUrlopen "https://apod.nasa.gov/apod/ap200116.html";
      EvLog INFO "Got link to page for 2020 January 15: Title";
      EvUrlopen "https://apod.nasa.gov/apod/ap200115.html";
      EvLog INFO "Image found at image/2001/full.jpg";
      EvUrlopen "https://apod.nasa.gov/apod/image/2001/full.jpg";
      EvOpen "./" "image_200115.jpg";
      EvWrite "./" "image_200115.jpg" (bytes "JFIFdata")]).
Proof.
  etransitivity;
    [exact (run_in_index_order net_small_archive fs_ok calm small_archive
              (fun _ _ => eq_refl) (fun _ => eq_refl) (fun _ _ _ => eq_refl))|].
  vm_compute. reflexivity.
Defined.

(** ** The date filter as a comparison of numbers *)

Lemma replace_dash (s : string) :
  replace "-" "" (String "-" s) = replace "-" "" s.
Proof.
  unfold replace. cbn [replace_from prefix].
  destruct (ascii_dec "-" "-") as [_|N]; [|contradiction].
  destruct s; reflexivity.
Qed.

Lemma digit_not_dash (c : ascii) : is_digit c = true -> c <> "-"%char.
Proof. intros H ->. discriminate H. Qed.

(** X18.  For a start date in ISO 8601 form, yyyy-mm-dd in digits, the
    threshold of [load_archive] is "ap" followed by the last two digits of
    the year, the month and the day. *)
Theorem page_start_of_iso_date :
  forall y1 y2 y3 y4 m1 m2 d1 d2 : ascii,
    is_digit y1 = true -> is_digit y2 = true -> is_digit y3 = true ->
    is_digit y4 = true -> is_digit m1 = true -> is_digit m2 = true ->
    is_digit d1 = true -> is_digit d2 = true ->
    page_start_of (iso_date y1 y2 y3 y4 m1 m2 d1 d2)
    = "ap" ++ String y3 (String y4 (String m1 (String m2 (String d1
                (String d2 ""))))).
Proof.
  intros y1 y2 y3 y4 m1 m2 d1 d2 H1 H2 H3 H4 H5 H6 H7 H8.
  apply digit_not_dash in H1, H2, H3, H4, H5, H6, H7, H8.
  unfold page_start_of, iso_date.
  rewrite (replace_keeps y1), (replace_keeps y2), (replace_keeps y3),
    (replace_keeps y4), replace_dash, (replace_keeps m1), (replace_keeps m2),
    replace_dash, (replace_keeps d1), (replace_keeps d2) by assumption.
  reflexivity.
Qed.

Lemma page_start_of_iso_date_witness : page_start_of DATE_START = "ap200101".
Proof.
  apply (page_start_of_iso_date "2" "0" "2" "0" "0" "1" "0" "1");
    reflexivity.
Defined.

Lemma ascii_compare_code (a b : ascii) :
  Ascii.compare a b = Nat.compare (code a) (code b).
Proof.
  unfold Ascii.compare, code, nat_of_ascii. apply N2Nat.inj_compare.
Qed.

Lemma digit_code (c : ascii) :
  is_digit c = true -> code c = 48 + digit_value c /\ digit_value c <= 9.
Proof.
  unfold is_digit, digit_value. intros H.
  apply andb_true_iff in H. destruct H as [L U].
  apply Nat.leb_le in L, U. lia.
Qed.

Lemma num_of_bound (s : string) :
  every is_digit s = true -> num_of s < 10 ^ String.length s.
Proof.
  induction s as [|c s IH]; intros H; [simpl; lia|].
  simpl in H. apply andb_true_iff in H. destruct H as [Hc Hs].
  destruct (digit_code c Hc) as [_ B]. specialize (IH Hs).
  cbn [num_of String.length]. rewrite Nat.pow_succ_r'. nia.
Qed.

Lemma leb_append (tail : string) :
  forall s d,
    String.length s = String.length d ->
    String.leb s (d ++ tail) = String.leb s d.
Proof.
  unfold String.leb.
  induction s as [|a s IH]; intros [|b d] L; try discriminate L.
  - destruct tail; reflexivity.
  - cbn [append String.compare].
    destruct (Ascii.compare a b); try reflexivity.
    apply IH. simpl in L. lia.
Qed.

Lemma leb_digits :
  forall s d,
    every is_digit s = true -> every is_digit d = true ->
    String.length s = String.length d ->
    String.leb s d = (num_of s <=? num_of d).
Proof.
  unfold String.leb.
  induction s as [|a s IH]; intros [|b d] Hs Hd L; try discriminate L.
  - reflexivity.
  - simpl in Hs, Hd, L.
    apply andb_true_iff in Hs. destruct Hs as [Ha Hs].
    apply andb_true_iff in Hd. destruct Hd as [Hb Hd].
    injection L as L.
    pose proof (num_of_bound s Hs) as Bs.
    pose proof (num_of_bound d Hd) as Bd.
    destruct (digit_code a Ha) as [Ca _].
    destruct (digit_code b Hb) as [Cb _].
    cbn [String.compare num_of]. rewrite ascii_compare_code, <- L.
    rewrite <- L in Bd.
    destruct (Nat.compare_spec (code a) (code b)) as [E|E|E].
    + rewrite (IH d Hs Hd L).
      replace (digit_value b) with (digit_value a) by lia.
      destruct (Nat.leb_spec (num_of s) (num_of d));
        symmetry; [apply Nat.leb_le | apply Nat.leb_gt]; lia.
    + symmetry. apply Nat.leb_le. nia.
    + symmetry. apply Nat.leb_gt. nia.
Qed.

(** X19.  With a threshold "ap" followed by digits, a link "ap", as many
    digits, and whatever comes after them (".html") passes the filter of
    [load_archive] exactly when the number its digits write is at least the
    number of the threshold: within one century, the row is yielded exactly
    when its date is the start date or later. *)
Theorem date_filter_is_numeric :
  forall (s d tail when title : string) (item : list byte)
         (rest : gen (list byte)),
    let pattern := re_compile PATTERN_SUBPAGE false in
    every is_digit s = true -> every is_digit d = true ->
    String.length s = String.length d ->
    re_match pattern (strip (decode_latin1 item))
    = Some [when; "ap" ++ d ++ tail; title] ->
    String.leb ("ap" ++ s) ("ap" ++ d ++ tail) = (num_of s <=? num_of d) /\
    load_archive_lines pattern ("ap" ++ s) (Yield item rest)
    = if num_of s <=? num_of d
      then Yield (when, "ap" ++ d ++ tail, title)
             (load_archive_lines pattern ("ap" ++ s) rest)
      else load_archive_lines pattern ("ap" ++ s) rest.
Proof.
  intros s d tail when title item rest pattern Hs Hd L M.
  assert (E : String.leb ("ap" ++ s) ("ap" ++ d ++ tail)
              = (num_of s <=? num_of d)).
  { rewrite <- (leb_digits s d Hs Hd L), <- (leb_append tail s d L).
    reflexivity. }
  split; [exact E|].
  cbn [load_archive_lines]. fold pattern. rewrite M, E. reflexivity.
Qed.

Lemma date_filter_is_numeric_witness :
  load_archive_lines (re_compile PATTERN_SUBPAGE false) "ap200102"
    (Yield ROW_ABOVE (Yield ROW_A Stop))
  = Yield ("200115xx", "ap200115.html", "Title C") Stop.
Proof.
  destruct (date_filter_is_numeric "200102" "200115" ".html" "200115xx"
              "Title C" ROW_ABOVE (Yield ROW_A Stop)
              eq_refl eq_refl eq_refl eq_refl) as (_ & E).
  etransitivity; [exact E|]. vm_compute. reflexivity.
Defined.
